(** * Scenario scripts of pocket_therapy/testsprite_tests

    The six scripts TC005, TC006, TC008, TC011, TC013 and TC014 are
    straight-line Python coroutines [run_test] that drive a Playwright
    browser inside one [try ... finally].  They are embedded here as
    computations in a small monad that threads

    - the three local variables [pw], [browser], [context] that the
      [finally] block reads, and
    - the chronological list of calls made on the Playwright API together
      with the way each call ended,

    and that keeps this state when an exception is raised, as Python does.
    The browser, the page under test and the network are an arbitrary
    [world]: an oracle that decides, from the history so far, whether a call
    raises, which frames the page has, and what text a locator resolves to. *)

From Stdlib Require Import String List ZArith Bool Lia.
From Stdlib Require Import DecimalString.
Import ListNotations.
Local Open Scope string_scope.
Local Open Scope Z_scope.

(** ** Exceptions *)

(** The exception classes that occur.  [TimeoutError] is Playwright's, a
    subclass of [async_api.Error]; [Error] is [async_api.Error] itself. *)
Inductive exn : Type :=
| Error                                   (* playwright.async_api.Error *)
| TimeoutError                            (* playwright.async_api.TimeoutError *)
| NameError (name : string)
| AttributeError (attr : string)
| AssertionError (msg : string)
| TypeError
| IndexError
| OtherException (cls : string).          (* CancelledError, OSError, ... *)

(** [except async_api.Error] catches the class and its subclasses. *)
Definition is_async_api_Error (e : exn) : bool :=
  match e with
  | Error | TimeoutError => true
  | _ => false
  end.

Inductive result (A : Type) : Type :=
| Ok (a : A)
| Raise (e : exn).
Arguments Ok {A} a.
Arguments Raise {A} e.

(** ** Calls on the Playwright API *)

(** The iframe selectors passed to [frame_locator] are long CSS selectors
    with embedded quotes; they differ only in the iframe they name, so they
    are kept as the kind of iframe and its [name] attribute. *)
Inductive iframe_sel : Type :=
| recaptcha_anchor (name : string)        (* iframe[title=reCAPTCHA] *)
| recaptcha_challenge (name : string).    (* iframe[title=recaptcha challenge ...] *)

(** [context.pages[-1].frame_locator(f).locator(xpath).nth(0)], or without
    the [frame_locator] when [in_iframe] is [None]. *)
Record selector : Type := {
  in_iframe : option iframe_sel;
  xpath : string
}.

Inductive call : Type :=
| async_playwright_start
| chromium_launch (headless : bool) (args : list string)
| new_context
| set_default_timeout (ms : Z)
| new_page
| goto (url : string) (wait_until : option string) (timeout : Z)
| page_wait_for_load_state (st : string) (timeout : Z)
| frame_wait_for_load_state (frame : nat) (st : string) (timeout : Z)
| mouse_wheel (dx dy : Z)
| context_pages_last                      (* context.pages[-1] *)
| wait_for_timeout (ms : Z)
| click (sel : selector) (timeout : Z)
| text_content (locator : string)
| asyncio_sleep (secs : Z)
| context_close
| browser_close
| pw_stop.

(** A call and how it ended: [None] when it returned, [Some e] when it
    raised [e]. *)
Definition event : Type := call * option exn.

(** The three teardown calls. *)
Definition is_close (c : call) : bool :=
  match c with
  | context_close | browser_close | pw_stop => true
  | _ => false
  end.

(** The three acquisition calls. *)
Definition is_acquire (c : call) : bool :=
  match c with
  | async_playwright_start | chromium_launch _ _ | new_context => true
  | _ => false
  end.

(** Navigation, waiting and interaction: everything a script does between
    acquisition and teardown. *)
Definition is_step_call (c : call) : bool :=
  match c with
  | set_default_timeout _ | new_page | goto _ _ _
  | page_wait_for_load_state _ _ | frame_wait_for_load_state _ _ _
  | context_pages_last | wait_for_timeout _ | click _ _
  | text_content _ | asyncio_sleep _ => true
  | _ => false
  end.

Definition is_mouse_wheel (c : call) : bool :=
  match c with
  | mouse_wheel _ _ => true
  | _ => false
  end.

Definition raised (ev : event) : bool :=
  match snd ev with
  | Some _ => true
  | None => false
  end.

Definition close_calls (tr : list event) : list call :=
  filter is_close (map fst tr).

(** No teardown call in [tr] ended with an exception. *)
Definition no_close_raised (tr : list event) : bool :=
  forallb (fun ev => negb (is_close (fst ev) && raised ev)) tr.

(** ** The world *)

Record world : Type := {
  raises : list event -> call -> option exn;
  frames : list event -> list nat;                  (* page.frames *)
  text : list event -> string -> option string      (* what text_content returns *)
}.

(** ** Program state *)

Inductive Playwright : Type := playwright_obj.
Inductive Browser : Type := browser_obj.
Inductive BrowserContext : Type := context_obj.

Record locals : Type := {
  pw : option Playwright;
  browser : option Browser;
  context : option BrowserContext
}.

Record state : Type := {
  vars : locals;
  trace : list event
}.

(** Lines 5-7 of every script. *)
Definition no_locals : locals :=
  {| pw := None; browser := None; context := None |}.

Definition fresh : state := {| vars := no_locals; trace := [] |}.

Definition log (ev : event) (s : state) : state :=
  {| vars := vars s; trace := trace s ++ [ev] |}.

(** ** The monad *)

Definition M (A : Type) : Type := state -> state * result A.

Definition ret {A} (a : A) : M A := fun s => (s, Ok a).

Definition raise {A} (e : exn) : M A := fun s => (s, Raise e).

Definition bind {A B} (m : M A) (f : A -> M B) : M B :=
  fun s =>
    match m s with
    | (s1, Ok a) => f a s1
    | (s1, Raise e) => (s1, Raise e)
    end.

Declare Scope py_scope.
Delimit Scope py_scope with py.
Notation "x <- m ;; k" := (bind m (fun x => k))
  (at level 100, m at next level, right associativity) : py_scope.
Notation "m ;; k" := (bind m (fun _ => k))
  (at level 100, right associativity) : py_scope.
Local Open Scope py_scope.

(** A suite of statements: run in order, stop at the first that raises. *)
Fixpoint block (stmts : list (M unit)) : M unit :=
  match stmts with
  | [] => ret tt
  | st :: rest => st ;; block rest
  end.

(** [for x in xs: f x] *)
Fixpoint for_each {A} (xs : list A) (f : A -> M unit) : M unit :=
  match xs with
  | [] => ret tt
  | x :: rest => f x ;; for_each rest f
  end.

(** [try: m / except async_api.Error: pass] *)
Definition try_except_Error_pass (m : M unit) : M unit :=
  fun s =>
    match m s with
    | (s1, Ok a) => (s1, Ok a)
    | (s1, Raise e) =>
        if is_async_api_Error e then (s1, Ok tt) else (s1, Raise e)
    end.

(** [try: body / finally: fin].  The [finally] suite always runs; if it
    raises, its exception is the one that propagates, otherwise the outcome
    of [body] does. *)
Definition try_finally (body fin : M unit) : M unit :=
  fun s =>
    let (s1, r1) := body s in
    match fin s1 with
    | (s2, Ok _) => (s2, r1)
    | (s2, Raise e) => (s2, Raise e)
    end.

(** [assert cond, msg], with assertions enabled (the scripts are run
    without [-O]). *)
Definition py_assert (cond : bool) (msg : string) : M unit :=
  if cond then ret tt else raise (AssertionError msg).

Definition set_pw : M unit := fun s =>
  ({| vars := {| pw := Some playwright_obj;
                 browser := browser (vars s);
                 context := context (vars s) |};
      trace := trace s |}, Ok tt).

Definition set_browser : M unit := fun s =>
  ({| vars := {| pw := pw (vars s);
                 browser := Some browser_obj;
                 context := context (vars s) |};
      trace := trace s |}, Ok tt).

Definition set_context : M unit := fun s =>
  ({| vars := {| pw := pw (vars s);
                 browser := browser (vars s);
                 context := Some context_obj |};
      trace := trace s |}, Ok tt).

(** ** Name lookup *)

(** A name that resolves, as a reference to whatever it is bound to. *)
Inductive pyref : Type := Ref (name : string).

(** Loading a name that is neither a local of [run_test] nor a global of
    the module (nor a builtin: Python has no builtin [window]). *)
Definition load_name (names : list string) (x : string) : M pyref :=
  if existsb (String.eqb x) names then ret (Ref x) else raise (NameError x).

(** None of the objects the scripts bind (the two imported modules, the
    coroutine function, Playwright handles, strings, numbers, a dict, a
    list) has an attribute [innerHeight]. *)
Definition getattr_innerHeight (r : pyref) : M Z :=
  raise (AttributeError "innerHeight").

(** Names bound at module level in every script. *)
Definition module_globals : list string := ["asyncio"; "async_api"; "run_test"].

(** Locals bound by the scaffolding shared by every [run_test]. *)
Definition scaffold_locals : list string :=
  ["pw"; "browser"; "context"; "page"; "frame"].

(** ** Statements that talk to the world *)

Section Statements.

Variable w : world.

(** Any awaited (or synchronous) API call: it is logged with its outcome and
    raises when the world says so. *)
Definition api (c : call) : M unit := fun s =>
  let o := raises w (trace s) c in
  (log (c, o) s, match o with None => Ok tt | Some e => Raise e end).

(** [await page.locator(l).text_content()] *)
Definition get_text_content (l : string) : M (option string) := fun s =>
  let o := raises w (trace s) (text_content l) in
  (log (text_content l, o) s,
   match o with None => Ok (text w (trace s) l) | Some e => Raise e end).

(** [page.frames] *)
Definition page_frames : M (list nat) := fun s => (s, Ok (frames w (trace s))).

(** *** Lines 11-29: acquisition *)

Definition launch_args : list string :=
  ["--window-size=1280,720"; "--disable-dev-shm-usage"; "--ipc=host";
   "--single-process"].

Definition start_pw : M unit := api async_playwright_start ;; set_pw.
Definition launch_browser : M unit :=
  api (chromium_launch true launch_args) ;; set_browser.
Definition open_context : M unit := api new_context ;; set_context.

Definition acquire : list (M unit) := [start_pw; launch_browser; open_context].

(** *** Lines 26-45: page set-up and frame-aware waiting *)

Definition wait_page_loaded : M unit :=
  try_except_Error_pass (api (page_wait_for_load_state "domcontentloaded" 3000)).

Definition wait_frame_loaded (f : nat) : M unit :=
  try_except_Error_pass (api (frame_wait_for_load_state f "domcontentloaded" 3000)).

Definition wait_frames : M unit :=
  fs <- page_frames ;; for_each fs wait_frame_loaded.

Definition setup : list (M unit) :=
  [ api (set_default_timeout 5000);
    api new_page;
    api (goto "http://localhost:8081" (Some "commit") 10000);
    wait_page_loaded;
    wait_frames ].

(** *** Interaction steps *)

(** [await page.mouse.wheel(0, window.innerHeight)]: the arguments are
    evaluated before the call is made. *)
Definition scroll_step (names : list string) : M unit :=
  dy <- (win <- load_name names "window" ;; getattr_innerHeight win) ;;
  api (mouse_wheel 0 dy).

(** [await page.goto(url, timeout=10000)] *)
Definition goto_step (url : string) : M unit := api (goto url None 10000).

(** [frame = context.pages[-1]...; elem = frame.locator(...).nth(0);
     await page.wait_for_timeout(3000); await elem.click(timeout=5000)].
    Locators are lazy: only [pages[-1]], the wait and the click can fail. *)
Definition click_step (sel : selector) : M unit :=
  api context_pages_last ;;
  api (wait_for_timeout 3000) ;;
  api (click sel 5000).

(** [assert False, msg] *)
Definition assert_False (msg : string) : M unit := py_assert false msg.

(** [await asyncio.sleep(5)] *)
Definition sleep_step : M unit := api (asyncio_sleep 5).

(** *** Lines 83-89: the [finally] suite *)

Definition close_context : M unit := fun s =>
  match context (vars s) with
  | Some _ => api context_close s
  | None => (s, Ok tt)
  end.

Definition close_browser : M unit := fun s =>
  match browser (vars s) with
  | Some _ => api browser_close s
  | None => (s, Ok tt)
  end.

Definition stop_pw : M unit := fun s =>
  match pw (vars s) with
  | Some _ => api pw_stop s
  | None => (s, Ok tt)
  end.

Definition teardown : M unit := block [close_context; close_browser; stop_pw].

(** The [try] suite of a script whose scenario-specific statements are
    [steps], and the whole coroutine. *)
Definition try_suite (steps : list (M unit)) : M unit :=
  block (acquire ++ setup ++ steps).

Definition run_scenario (steps : list (M unit)) : M unit := fun s =>
  try_finally (try_suite steps) teardown
    {| vars := no_locals; trace := trace s |}.

End Statements.

(** ** Helpers of the assertion suites *)

(** [needle in hay] on Python strings. *)
Fixpoint contains (needle hay : string) : bool :=
  String.prefix needle hay
  || match hay with
     | EmptyString => false
     | String _ rest => contains needle rest
     end.

(** [assert needle in t] where [t] is what [text_content()] returned:
    [None] is not iterable. *)
Definition assert_in (needle : string) (t : option string) : M unit :=
  match t with
  | None => raise TypeError
  | Some hay => py_assert (contains needle hay) EmptyString
  end.

Definition string_of_Z (z : Z) : string := NilZero.string_of_int (Z.to_int z).

Inductive pyval : Type :=
| PyStr (s : string)
| PyInt (z : Z).

(** [key in d] for a dict literal, kept as its items in source order. *)
Definition dict_has_key (d : list (string * pyval)) (key : string) : bool :=
  existsb (fun kv => String.eqb key (fst kv)) d.

(** ** TC005_SOS_Crisis_Support_Activation.py *)

Module TC005.
Section Script.
Variable w : world.

Definition names : list string := module_globals ++ scaffold_locals.

Definition failure_message : string :=
  "Test failed: SOS floating button or crisis support screen did not behave as expected.".

Definition steps : list (M unit) :=
  [ scroll_step w names;                                     (* line 49 *)
    goto_step w "http://localhost:8081/home";                (* line 53 *)
    goto_step w "http://localhost:8081/dashboard";           (* line 57 *)
    scroll_step w names;                                     (* line 61 *)
    goto_step w "http://localhost:8081";                     (* line 65 *)
    goto_step w "http://localhost:8081";                     (* line 69 *)
    scroll_step w names;                                     (* line 73 *)
    goto_step w "http://localhost:8081";                     (* line 77 *)
    assert_False failure_message;                            (* line 80 *)
    sleep_step w ].                                          (* line 81 *)

Definition run_test : M unit := run_scenario w steps.

End Script.
End TC005.

(** ** TC006_Offline_Mode_Mood_Tracking_and_Exercise_Playback.py *)

Module TC006.
Section Script.
Variable w : world.

Definition names : list string :=
  module_globals ++ scaffold_locals
  ++ ["elem"; "offline_message"; "sync_confirmation"; "conflict_message"].

Definition captcha_checkbox : selector :=
  {| in_iframe := Some (recaptcha_anchor "a-5llxkbaeefzu");
     xpath := "xpath=html/body/div[2]/div[3]/div/div/div/span" |}.

Definition offline_text : string := "You need to enable JavaScript to run this app.".
Definition sync_text : string := "Data synchronized successfully".
Definition conflict_text : string := "Conflict resolved".

(** [x = await page.locator('text=' + t).text_content(); assert t in x] *)
Definition text_assertion (t : string) : M unit :=
  x <- get_text_content w ("text=" ++ t) ;; assert_in t x.

(** Lines 54-62. *)
Definition assertions : list (M unit) :=
  [ text_assertion offline_text;
    text_assertion sync_text;
    text_assertion conflict_text ].

Definition assertion_block : M unit := block assertions.

Definition steps : list (M unit) :=
  [ click_step w captcha_checkbox;                           (* lines 49-51 *)
    assertion_block;                                         (* lines 54-62 *)
    sleep_step w ].                                          (* line 63 *)

Definition run_test : M unit := run_scenario w steps.

End Script.
End TC006.

(** ** TC008_Notification_Delivery_and_Contextual_Therapeutic_Messaging.py *)

Module TC008.
Section Script.
Variable w : world.

Definition names : list string := module_globals ++ scaffold_locals ++ ["elem"].

Definition failure_message : string :=
  "Test plan execution failed: Expected result unknown, generic failure assertion.".

Definition challenge (x : string) : selector :=
  {| in_iframe := Some (recaptcha_challenge "c-58uz6c1dz1fm"); xpath := x |}.

Definition captcha_checkbox : selector :=
  {| in_iframe := Some (recaptcha_anchor "a-58uz6c1dz1fm");
     xpath := "xpath=html/body/div[2]/div[3]/div/div/div/span" |}.

Definition image_tile : selector :=
  challenge "xpath=html/body/div/div/div[2]/div[2]/div/table/tbody/tr/td".

Definition steps : list (M unit) :=
  [ scroll_step w names;                                     (* line 49 *)
    scroll_step w names;                                     (* line 52 *)
    scroll_step w names;                                     (* line 55 *)
    scroll_step w names;                                     (* line 58 *)
    goto_step w "http://localhost:8081/settings";            (* line 62 *)
    click_step w captcha_checkbox;                           (* lines 66-68 *)
    click_step w image_tile;                                 (* lines 72-74 *)
    click_step w image_tile;                                 (* lines 78-80 *)
    click_step w image_tile;                                 (* lines 84-86 *)
    click_step w image_tile;                                 (* lines 90-92 *)
    click_step w
      (challenge "xpath=html/body/div/div/div[3]/div[2]/div/div/div/button");
                                                             (* lines 96-98 *)
    click_step w image_tile;                                 (* lines 102-104 *)
    click_step w
      (challenge "xpath=html/body/div/div/div[3]/div[2]/div/div/div[2]/button");
                                                             (* lines 108-110 *)
    goto_step w "http://localhost:8081";                     (* line 114 *)
    assert_False failure_message;                            (* line 117 *)
    sleep_step w ].                                          (* line 118 *)

Definition run_test : M unit := run_scenario w steps.

End Script.
End TC008.

(** ** TC011_Settings_Privacy_and_Data_Management_Controls.py *)

Module TC011.
Section Script.
Variable w : world.

Definition names : list string := module_globals ++ scaffold_locals.

Definition failure_message : string :=
  "Test plan execution failed: generic failure assertion.".

Definition steps : list (M unit) :=
  [ scroll_step w names;                                     (* line 49 *)
    goto_step w "http://localhost:8081/";                    (* line 53 *)
    goto_step w "http://localhost:8081";                     (* line 57 *)
    goto_step w "http://localhost:8081/settings";            (* line 61 *)
    goto_step w "http://localhost:8081/user/settings";       (* line 65 *)
    goto_step w "http://localhost:8081/profile/settings";    (* line 69 *)
    goto_step w "http://localhost:8081";                     (* line 73 *)
    scroll_step w names;                                     (* line 77 *)
    goto_step w "http://localhost:8081";                     (* line 81 *)
    assert_False failure_message;                            (* line 84 *)
    sleep_step w ].                                          (* line 85 *)

Definition run_test : M unit := run_scenario w steps.

End Script.
End TC011.

(** ** TC013_Data_Access_Security_and_Anonymized_Analytics.py *)

Module TC013.
Section Script.
Variable w : world.

Definition names : list string :=
  module_globals ++ scaffold_locals
  ++ ["elem"; "response_status"; "logged_in_user_id"; "returned_user_id";
      "aggregated_data"; "pii_fields"; "field"].

Definition result_image : selector :=
  {| in_iframe := None;
     xpath := "xpath=html/body/div[3]/div/div[11]/div/div/div[2]/div[2]/div/div/div/div/div/div/div/div/span/a/div/div/span/div/img" |}.

Definition dialog_button : selector :=
  {| in_iframe := None;
     xpath := "xpath=html/body/div[6]/div[2]/div/div/div[2]/div/div/button" |}.

(** Lines 83, 87, 88, 92, 93: the values the assertions read. *)
Definition response_status : Z := 401.
Definition logged_in_user_id : string := "user123".
Definition returned_user_id : string := "user123".
Definition aggregated_data : list (string * pyval) :=
  [("trend", PyStr "positive"); ("count", PyInt 100)].
Definition pii_fields : list string := ["name"; "email"; "phone"; "address"].

Definition status_assertion : M unit :=                      (* line 84 *)
  py_assert (existsb (Z.eqb response_status) [401; 403])
    ("Expected access denied status code 401 or 403, got "
     ++ string_of_Z response_status).

Definition user_assertion : M unit :=                        (* line 89 *)
  py_assert (String.eqb returned_user_id logged_in_user_id)
    ("Returned data user id " ++ returned_user_id
     ++ " does not match logged-in user id " ++ logged_in_user_id).

Definition pii_assertion (field : string) : M unit :=        (* line 95 *)
  py_assert (negb (dict_has_key aggregated_data field))
    ("PII field " ++ field
     ++ " should not be present in aggregated analytics data").

(** Lines 82-95. *)
Definition assertions : list (M unit) :=
  [ status_assertion;
    user_assertion;
    for_each pii_fields pii_assertion ].

Definition assertion_block : M unit := block assertions.

Definition steps : list (M unit) :=
  [ click_step w result_image;                               (* lines 49-51 *)
    scroll_step w names;                                     (* line 55 *)
    click_step w result_image;                               (* lines 59-61 *)
    click_step w result_image;                               (* lines 65-67 *)
    click_step w dialog_button;                              (* lines 71-73 *)
    click_step w result_image;                               (* lines 77-79 *)
    assertion_block;                                         (* lines 82-95 *)
    sleep_step w ].                                          (* line 96 *)

Definition run_test : M unit := run_scenario w steps.

End Script.
End TC013.

(** ** TC014_Performance_Under_Load_and_Low_end_Devices.py *)

Module TC014.
Section Script.
Variable w : world.

Definition names : list string := module_globals ++ scaffold_locals ++ ["elem"].

Definition failure_message : string :=
  "Test plan execution failed: app did not load or respond as expected on low-end device emulator.".

Definition challenge (x : string) : selector :=
  {| in_iframe := Some (recaptcha_challenge "c-doonv518d1g5"); xpath := x |}.

Definition captcha_checkbox : selector :=
  {| in_iframe := Some (recaptcha_anchor "a-doonv518d1g5");
     xpath := "xpath=html/body/div[2]/div[3]/div/div/div/span" |}.

Definition skip_button : selector :=
  challenge "xpath=html/body/div/div/div[3]/div[2]/div/div[2]/button".

Definition steps : list (M unit) :=
  [ goto_step w "http://localhost:8081/";                    (* line 49 *)
    goto_step w "http://localhost:8081/debug";               (* line 53 *)
    goto_step w "http://localhost:8081/";                    (* line 57 *)
    goto_step w "http://localhost:8081/logs";                (* line 61 *)
    click_step w captcha_checkbox;                           (* lines 65-67 *)
    click_step w
      (challenge "xpath=html/body/div/div/div[2]/div[2]/div/table/tbody/tr/td");
                                                             (* lines 71-73 *)
    click_step w skip_button;                                (* lines 77-79 *)
    click_step w skip_button;                                (* lines 83-85 *)
    assert_False failure_message;                            (* line 88 *)
    sleep_step w ].                                          (* line 89 *)

Definition run_test : M unit := run_scenario w steps.

End Script.
End TC014.

(** ** The six scripts together *)

Inductive script : Type := tc005 | tc006 | tc008 | tc011 | tc013 | tc014.

Definition steps_of (w : world) (sc : script) : list (M unit) :=
  match sc with
  | tc005 => TC005.steps w
  | tc006 => TC006.steps w
  | tc008 => TC008.steps w
  | tc011 => TC011.steps w
  | tc013 => TC013.steps w
  | tc014 => TC014.steps w
  end.

Definition names_of (sc : script) : list string :=
  match sc with
  | tc005 => TC005.names
  | tc006 => TC006.names
  | tc008 => TC008.names
  | tc011 => TC011.names
  | tc013 => TC013.names
  | tc014 => TC014.names
  end.

Definition run_test_of (w : world) (sc : script) : M unit :=
  match sc with
  | tc005 => TC005.run_test w
  | tc006 => TC006.run_test w
  | tc008 => TC008.run_test w
  | tc011 => TC011.run_test w
  | tc013 => TC013.run_test w
  | tc014 => TC014.run_test w
  end.

(** The statements of the [try] suite, in order. *)
Definition body_of (w : world) (sc : script) : list (M unit) :=
  acquire w ++ setup w ++ steps_of w sc.

(** ** Worlds used as concrete inputs *)

(** The application answers everything; the page has just its main frame
    and the looked-up texts are not there. *)
Definition calm : world :=
  {| raises := fun _ _ => None;
     frames := fun _ => [0%nat];
     text := fun _ _ => None |}.

(** A world that behaves like [calm] except that the calls selected by
    [bad] raise [e]. *)
Definition failing (bad : call -> bool) (e : exn) : world :=
  {| raises := fun _ c => if bad c then Some e else None;
     frames := fun _ => [0%nat];
     text := fun _ _ => None |}.

Definition is_context_close (c : call) : bool :=
  match c with context_close => true | _ => false end.

Definition is_click (c : call) : bool :=
  match c with click _ _ => true | _ => false end.


Definition is_launch (c : call) : bool :=
  match c with chromium_launch _ _ => true | _ => false end.

Definition is_frame_wait (f : nat) (c : call) : bool :=
  match c with
  | frame_wait_for_load_state g _ _ => Nat.eqb f g
  | _ => false
  end.

(** A page with three frames whose second frame never settles. *)
Definition slow_iframe : world :=
  {| raises := fun _ c => if is_frame_wait 1 c then Some TimeoutError else None;
     frames := fun _ => [0%nat; 1%nat; 2%nat];
     text := fun _ _ => None |}.

Definition three_frames : world :=
  {| raises := fun _ _ => None;
     frames := fun _ => [0%nat; 1%nat; 2%nat];
     text := fun _ _ => None |}.

(** The captcha click goes through and the first looked-up element is found,
    but its text differs in case from the expected one (Playwright's [text=]
    selector matches case-insensitively, Python's [in] does not). *)
Definition lowercase_page : world :=
  {| raises := fun _ _ => None;
     frames := fun _ => [0%nat];
     text := fun _ l =>
       if String.eqb l ("text=" ++ TC006.offline_text)
       then Some "you need to enable javascript to run this app."
       else Some EmptyString |}.

(** * Vocabulary of the properties *)

Local Open Scope list_scope.

(** ** Statements *)

(** A statement that raises from every state. *)
Definition always_raises (st : M unit) : Prop :=
  forall s, exists s' e, st s = (s', Raise e).

(** Events that are all step calls, and events that are all close calls. *)
Definition step_events (evs : list event) : bool :=
  forallb (fun ev => is_step_call (fst ev)) evs.

Definition close_events (evs : list event) : bool :=
  forallb (fun ev => is_close (fst ev)) evs.

(** A computation that leaves the locals alone and makes step calls only. *)
Definition quiet {A} (m : M A) : Prop :=
  forall s, exists evs,
    fst (m s) = {| vars := vars s; trace := trace s ++ evs |}
    /\ step_events evs = true.

(** ** How the [try] suite of a script can end *)

Definition launch : call := chromium_launch true launch_args.

Definition with_pw : locals :=
  {| pw := Some playwright_obj; browser := None; context := None |}.

Definition with_browser : locals :=
  {| pw := Some playwright_obj; browser := Some browser_obj; context := None |}.

Definition with_context : locals :=
  {| pw := Some playwright_obj; browser := Some browser_obj;
     context := Some context_obj |}.

Definition session_events : list event :=
  [(async_playwright_start, None); (launch, None); (new_context, None)].

(** Either one of the three acquisition calls raised, and nothing else was
    done, or the session was acquired and only step calls followed. *)
Inductive body_outcome : state * result unit -> Prop :=
| start_failed (e : exn) :
    body_outcome
      ({| vars := no_locals; trace := [(async_playwright_start, Some e)] |},
       Raise e)
| launch_failed (e : exn) :
    body_outcome
      ({| vars := with_pw;
          trace := [(async_playwright_start, None); (launch, Some e)] |},
       Raise e)
| context_failed (e : exn) :
    body_outcome
      ({| vars := with_browser;
          trace := [(async_playwright_start, None); (launch, None);
                    (new_context, Some e)] |},
       Raise e)
| session_acquired (evs : list event) (r : result unit) :
    step_events evs = true ->
    body_outcome
      ({| vars := with_context; trace := session_events ++ evs |}, r).

(** ** What the [finally] suite does *)

(** The close calls the [finally] suite is due to make, given the locals. *)
Definition closes_due (v : locals) : list call :=
  (match context v with Some _ => [context_close] | None => [] end)
  ++ (match browser v with Some _ => [browser_close] | None => [] end)
  ++ (match pw v with Some _ => [pw_stop] | None => [] end).

(** Making the calls [cs] one after the other from history [tr], up to the
    first that raises. *)
Fixpoint run_calls (w : world) (tr : list event) (cs : list call)
  : list event * result unit :=
  match cs with
  | [] => ([], Ok tt)
  | c :: rest =>
      match raises w tr c with
      | Some e => ([(c, Some e)], Raise e)
      | None =>
          let (evs, r) := run_calls w (tr ++ [(c, None)]) rest in
          ((c, None) :: evs, r)
      end
  end.

(** ** Reading a trace *)

Definition is_text_content (c : call) : bool :=
  match c with text_content _ => true | _ => false end.

Definition calls_where (p : call -> bool) (tr : list event) : list event :=
  filter (fun ev => p (fst ev)) tr.

(** ** Assertions *)

Definition failure_message_of (sc : script) : option string :=
  match sc with
  | tc005 => Some TC005.failure_message
  | tc008 => Some TC008.failure_message
  | tc011 => Some TC011.failure_message
  | tc014 => Some TC014.failure_message
  | tc006 | tc013 => None
  end.

(** The [assert False] is the last statement but one: the [sleep] after it
    is dead code. *)
Definition assert_position (w : world) (sc : script) : nat :=
  (length (body_of w sc) - 2)%nat.

(** ** Classes of calls *)

(** A computation that leaves the locals alone and makes only calls that
    satisfy [P]. *)
Definition emits (P : call -> bool) {A} (m : M A) : Prop :=
  forall s, exists evs,
    fst (m s) = {| vars := vars s; trace := trace s ++ evs |}
    /\ forallb (fun ev => P (fst ev)) evs = true.

(** The wait of lines 43 on frame [f]. *)
Definition frame_wait (f : nat) : call :=
  frame_wait_for_load_state f "domcontentloaded" 3000.

Definition initial_goto : call :=
  goto "http://localhost:8081" (Some "commit") 10000.

(** The calls of lines 26-45, with the arguments they have there. *)
Definition is_setup_call (c : call) : bool :=
  match c with
  | set_default_timeout ms => Z.eqb ms 5000
  | new_page => true
  | goto url (Some wu) t =>
      String.eqb url "http://localhost:8081" && String.eqb wu "commit"
      && Z.eqb t 10000
  | page_wait_for_load_state st t
  | frame_wait_for_load_state _ st t =>
      String.eqb st "domcontentloaded" && Z.eqb t 3000
  | _ => false
  end.

(** The two kinds of load-state waits. *)
Definition is_load_wait (c : call) : bool :=
  match c with
  | page_wait_for_load_state _ _ | frame_wait_for_load_state _ _ _ => true
  | _ => false
  end.

(** The calls of lines 11-32, none of which is inside a [try/except]. *)
Definition scaffold_calls : list call :=
  [async_playwright_start; launch; new_context; set_default_timeout 5000;
   new_page; initial_goto].

(** Navigations stay on the application under test, and every call that
    takes a timeout is given the one the scripts use for its kind. *)
Definition is_confined (c : call) : bool :=
  match c with
  | goto url _ t => String.prefix "http://localhost:8081" url && Z.eqb t 10000
  | page_wait_for_load_state _ t | frame_wait_for_load_state _ _ t =>
      Z.eqb t 3000
  | wait_for_timeout ms => Z.eqb ms 3000
  | click _ t => Z.eqb t 5000
  | set_default_timeout ms => Z.eqb ms 5000
  | mouse_wheel _ _ => false
  | _ => true
  end.

(** ** More worlds *)

(** Every call returns and every looked-up element holds exactly the text
    its [text=] locator asks for. *)
Definition found_page : world :=
  {| raises := fun _ _ => None;
     frames := fun _ => [0%nat];
     text := fun _ l => Some (substring 5 (String.length l - 5) l) |}.

(** A page with three frames; the wait on the second one is interrupted by
    an exception that is not Playwright's. *)
Definition cancelled_iframe : world :=
  {| raises := fun _ c =>
       if is_frame_wait 1 c then Some (OtherException "CancelledError")
       else None;
     frames := fun _ => [0%nat; 1%nat; 2%nat];
     text := fun _ _ => None |}.

(** Acquisition of the context fails. *)
Definition is_new_context (c : call) : bool :=
  match c with new_context => true | _ => false end.

Definition is_start (c : call) : bool :=
  match c with async_playwright_start => true | _ => false end.

(** ** What may follow a call *)

(** A call that returned, or a load-state wait that failed with an error
    of the [async_api.Error] family. *)
Definition tolerated (ev : event) : Prop :=
  match snd ev with
  | None => True
  | Some e => is_load_wait (fst ev) = true /\ is_async_api_Error e = true
  end.

(** If [ev], made after history [tr], is a [text_content()] call, it
    returned a string that contains the text its locator asks for: the
    assertion made on it passes. *)
Definition passed (w : world) (tr : list event) (ev : event) : Prop :=
  forall l, fst ev = text_content l ->
    exists t h, l = ("text=" ++ t)%string /\ snd ev = None
                /\ text w tr l = Some h /\ contains t h = true.

Definition goes_on (w : world) (tr : list event) (ev : event) : Prop :=
  tolerated ev /\ passed w tr ev.

(** The computation ended with the exception of the call [ev], or with that
    of the assertion made on what [ev] returned. *)
Definition ends_with {A} (w : world) (tr : list event) (ev : event)
           (r : result A) : Prop :=
  match r with
  | Ok _ => False
  | Raise e' =>
      match snd ev with
      | Some e => e' = e
      | None =>
          match fst ev with
          | text_content l =>
              match text w tr l with
              | None => e' = TypeError
              | Some _ => e' = AssertionError EmptyString
              end
          | _ => False
          end
      end
  end.

(** Every call a computation makes either goes on, or is the last thing the
    computation does and decides its exception. *)
Definition guarded (w : world) {A} (m : M A) : Prop :=
  forall s, exists evs,
    trace (fst (m s)) = trace s ++ evs
    /\ forall a ev b,
         evs = a ++ ev :: b ->
         goes_on w (trace s ++ a) ev
         \/ (b = [] /\ ends_with w (trace s ++ a) ev (snd (m s))).



(** * Properties *)

(** ** Suites stop at the first statement that raises *)

Lemma state_eta (s : state) : {| vars := vars s; trace := trace s |} = s.
Proof. destruct s; reflexivity. Qed.

Lemma block_app (a b : list (M unit)) (s : state) :
  block (a ++ b) s =
  match block a s with
  | (s1, Ok _) => block b s1
  | (s1, Raise e) => (s1, Raise e)
  end.
Proof.
  revert s; induction a as [|st a IH]; intros s; simpl.
  - reflexivity.
  - unfold bind. destruct (st s) as [s1 [[]|e]]; [apply IH | reflexivity].
Qed.

Lemma firstn_nth_split {A} (l : list A) (k : nat) (x : A) :
  nth_error l k = Some x -> l = firstn k l ++ x :: skipn (S k) l.
Proof.
  revert k; induction l as [|y l IH]; intros [|k] H; simpl in *;
    try discriminate.
  - injection H as ->. reflexivity.
  - f_equal. apply IH, H.
Qed.

(** If the statements before position [k] complete and statement [k]
    raises, the suite ends there, in the state that statement left. *)
Lemma block_abort (stmts : list (M unit)) (k : nat) (st : M unit)
      (s s1 s2 : state) (e : exn) :
  nth_error stmts k = Some st ->
  block (firstn k stmts) s = (s1, Ok tt) ->
  st s1 = (s2, Raise e) ->
  block stmts s = (s2, Raise e).
Proof.
  intros Hk Hpre Hst.
  rewrite (firstn_nth_split stmts k st Hk), block_app, Hpre.
  simpl. unfold bind. rewrite Hst. reflexivity.
Qed.

(** Nothing gets past a statement that always raises. *)
Lemma block_never_passes (stmts : list (M unit)) (k j : nat) (st : M unit) :
  nth_error stmts k = Some st ->
  always_raises st ->
  (k < j)%nat ->
  forall s s', block (firstn j stmts) s <> (s', Ok tt).
Proof.
  revert k j; induction stmts as [|x l IH]; intros k j Hk Hst Hlt s s'.
  - destruct k; discriminate.
  - destruct j as [|j]; [lia|]. simpl. unfold bind.
    destruct k as [|k]; simpl in Hk.
    + injection Hk as ->. destruct (Hst s) as (s1 & e & ->). discriminate.
    + destruct (x s) as [s1 [[]|e]]; [|discriminate].
      apply (IH k j Hk Hst); lia.
Qed.

Lemma block_never_ok (stmts : list (M unit)) (k : nat) (st : M unit) :
  nth_error stmts k = Some st ->
  always_raises st ->
  forall s s', block stmts s <> (s', Ok tt).
Proof.
  intros Hk Hst s s'.
  rewrite <- (firstn_all stmts).
  apply (block_never_passes stmts k (length stmts) st Hk Hst).
  apply nth_error_Some. rewrite Hk. discriminate.
Qed.

Lemma assert_False_raises (msg : string) (s : state) :
  assert_False msg s = (s, Raise (AssertionError msg)).
Proof. reflexivity. Qed.

Lemma scroll_step_raises (w : world) (names : list string) (s : state) :
  existsb (String.eqb "window") names = false ->
  scroll_step w names s = (s, Raise (NameError "window")).
Proof.
  intros H. unfold scroll_step, bind, load_name. rewrite H. reflexivity.
Qed.

Lemma window_unbound (sc : script) :
  existsb (String.eqb "window") (names_of sc) = false.
Proof. destruct sc; reflexivity. Qed.

(** ** Step statements leave the locals alone and make step calls only *)

Lemma step_events_app (a b : list event) :
  step_events a = true -> step_events b = true -> step_events (a ++ b) = true.
Proof.
  intros Ha Hb. unfold step_events. rewrite forallb_app.
  apply andb_true_intro; split; assumption.
Qed.

Lemma quiet_ret {A} (a : A) : quiet (ret a).
Proof.
  intros s; exists []; simpl. rewrite app_nil_r, state_eta. auto.
Qed.

Lemma quiet_raise {A} (e : exn) : quiet (@raise A e).
Proof.
  intros s; exists []; simpl. rewrite app_nil_r, state_eta. auto.
Qed.

Lemma quiet_bind {A B} (m : M A) (f : A -> M B) :
  quiet m -> (forall a, quiet (f a)) -> quiet (bind m f).
Proof.
  intros Hm Hf s. unfold bind.
  destruct (Hm s) as (evs & Hs & Hevs).
  destruct (m s) as [s1 [a|e]]; simpl in Hs; subst s1.
  - destruct (Hf a {| vars := vars s; trace := trace s ++ evs |})
      as (evs' & Hs' & Hevs').
    exists (evs ++ evs'). rewrite Hs'; simpl. rewrite app_assoc. split; auto.
    apply step_events_app; assumption.
  - exists evs. auto.
Qed.

Lemma quiet_api (w : world) (c : call) :
  is_step_call c = true -> quiet (api w c).
Proof.
  intros Hc s. exists [(c, raises w (trace s) c)]. simpl.
  rewrite Hc. auto.
Qed.

Lemma quiet_get_text_content (w : world) (l : string) :
  quiet (get_text_content w l).
Proof.
  intros s. exists [(text_content l, raises w (trace s) (text_content l))].
  simpl. auto.
Qed.

Lemma quiet_try_except (m : M unit) :
  quiet m -> quiet (try_except_Error_pass m).
Proof.
  intros Hm s. unfold try_except_Error_pass.
  destruct (Hm s) as (evs & Hs & Hevs). exists evs.
  destruct (m s) as [s1 [a|e]]; simpl in *; [auto|].
  destruct (is_async_api_Error e); simpl; auto.
Qed.

Lemma quiet_for_each {A} (xs : list A) (f : A -> M unit) :
  (forall x, quiet (f x)) -> quiet (for_each xs f).
Proof.
  intros Hf. induction xs as [|x xs IH]; simpl.
  - apply quiet_ret.
  - apply quiet_bind; auto.
Qed.

Lemma quiet_block (stmts : list (M unit)) :
  Forall quiet stmts -> quiet (block stmts).
Proof.
  induction 1 as [|st l Hst _ IH]; simpl.
  - apply quiet_ret.
  - apply quiet_bind; auto.
Qed.

Lemma quiet_py_assert (b : bool) (msg : string) : quiet (py_assert b msg).
Proof. destruct b; [apply quiet_ret | apply quiet_raise]. Qed.

Lemma quiet_assert_in (needle : string) (t : option string) :
  quiet (assert_in needle t).
Proof. destruct t; [apply quiet_py_assert | apply quiet_raise]. Qed.

Lemma quiet_scroll_step (w : world) (names : list string) :
  quiet (scroll_step w names).
Proof.
  intros s. exists []. unfold scroll_step, bind, load_name.
  destruct (existsb _ _); simpl; rewrite app_nil_r, state_eta; auto.
Qed.

Lemma quiet_click_step (w : world) (sel : selector) : quiet (click_step w sel).
Proof.
  unfold click_step.
  repeat (apply quiet_bind; [|intros _]); apply quiet_api; reflexivity.
Qed.

Lemma quiet_wait_frames (w : world) : quiet (wait_frames w).
Proof.
  unfold wait_frames. apply quiet_bind.
  - intros s. exists []. simpl. rewrite app_nil_r, state_eta. auto.
  - intros fs. apply quiet_for_each. intros f.
    apply quiet_try_except, quiet_api. reflexivity.
Qed.

Lemma quiet_TC006_assertion_block (w : world) : quiet (TC006.assertion_block w).
Proof.
  apply quiet_block. repeat constructor;
    (apply quiet_bind; [apply quiet_get_text_content
                       | intros t; apply quiet_assert_in]).
Qed.

Lemma quiet_TC013_assertion_block : quiet TC013.assertion_block.
Proof.
  apply quiet_block. repeat constructor; try apply quiet_py_assert.
  apply quiet_for_each. intros f. apply quiet_py_assert.
Qed.

Create HintDb quiet.

#[local] Hint Resolve quiet_scroll_step quiet_click_step quiet_wait_frames
  quiet_TC006_assertion_block quiet_TC013_assertion_block quiet_py_assert
  : quiet.

Ltac quiet_stmt :=
  first [ solve [auto with quiet]
        | apply quiet_try_except, quiet_api; reflexivity
        | apply quiet_api; reflexivity ].

(** Everything after acquisition, in every script. *)
Lemma rest_quiet (w : world) (sc : script) :
  quiet (block (setup w ++ steps_of w sc)).
Proof.
  apply quiet_block. destruct sc; repeat constructor; quiet_stmt.
Qed.

(** ** How the [try] suite of a script can end *)

Lemma body_cases (w : world) (sc : script) :
  body_outcome (block (body_of w sc) fresh).
Proof.
  unfold body_of. rewrite block_app.
  pose proof (rest_quiet w sc) as Hq.
  set (rest := block (setup w ++ steps_of w sc)) in *. clearbody rest.
  unfold acquire; cbn [block].
  unfold start_pw, launch_browser, open_context, bind, api, set_pw,
    set_browser, set_context, ret, fresh, log; simpl.
  destruct (raises w [] async_playwright_start) as [e|]; simpl;
    [apply start_failed|].
  destruct (raises w _ (chromium_launch true launch_args)) as [e|]; simpl;
    [apply launch_failed|].
  destruct (raises w _ new_context) as [e|]; simpl; [apply context_failed|].
  match goal with |- body_outcome (rest ?s0) =>
    destruct (Hq s0) as (evs & Hs & Hevs);
    destruct (rest s0) as [s1 r]
  end.
  simpl in Hs; subst s1. apply session_acquired, Hevs.
Qed.

(** ** The [finally] suite *)

Lemma teardown_run_calls (w : world) (s : state) :
  teardown w s =
  let (evs, r) := run_calls w (trace s) (closes_due (vars s)) in
  ({| vars := vars s; trace := trace s ++ evs |}, r).
Proof.
  destruct s as [[p b c] tr].
  unfold teardown, block, bind, close_context, close_browser, stop_pw, api,
    log, closes_due; simpl.
  destruct c, b, p; simpl; unfold event in *;
    repeat match goal with
           | |- context [raises w ?t ?c] =>
               lazymatch t with
               | context [raises] => fail
               | _ => destruct (raises w t c); simpl
               end
           end;
    unfold ret; rewrite <- ?app_assoc; simpl; rewrite ?app_nil_r;
    reflexivity.
Qed.

Lemma run_calls_prefix (w : world) (cs : list call) :
  forall tr, exists n,
    map fst (fst (run_calls w tr cs)) = firstn n cs.
Proof.
  induction cs as [|c cs IH]; intros tr; simpl.
  - exists 0%nat. reflexivity.
  - destruct (raises w tr c) as [e|].
    + exists 1%nat. reflexivity.
    + destruct (IH (tr ++ [(c, None)])) as (n & Hn).
      destruct (run_calls w (tr ++ [(c, None)]) cs) as [evs r].
      exists (S n). simpl in *. rewrite Hn. reflexivity.
Qed.

Lemma run_calls_all (w : world) (cs : list call) :
  forall tr,
    forallb (fun ev => negb (raised ev)) (fst (run_calls w tr cs)) = true ->
    map fst (fst (run_calls w tr cs)) = cs
    /\ snd (run_calls w tr cs) = Ok tt.
Proof.
  induction cs as [|c cs IH]; intros tr; simpl.
  - auto.
  - destruct (raises w tr c) as [e|]; [discriminate|].
    specialize (IH (tr ++ [(c, None)])).
    destruct (run_calls w (tr ++ [(c, None)]) cs) as [evs r].
    simpl in *. intros H. destruct (IH H) as [-> ->]. auto.
Qed.

(** A call that raises is the last one made, and its exception is the
    outcome. *)
Lemma run_calls_raise (w : world) (cs : list call) (c : call) (e : exn) :
  forall tr,
    In (c, Some e) (fst (run_calls w tr cs)) ->
    snd (run_calls w tr cs) = Raise e
    /\ exists n,
         nth_error cs n = Some c
         /\ map fst (fst (run_calls w tr cs)) = firstn (S n) cs
         /\ fst (run_calls w tr cs)
            = map (fun c' => (c', None)) (firstn n cs) ++ [(c, Some e)].
Proof.
  induction cs as [|c0 cs IH]; intros tr; simpl.
  - intros [].
  - destruct (raises w tr c0) as [e0|]; simpl.
    + intros [H|[]]. injection H as -> ->. split; [reflexivity|].
      exists 0%nat. auto.
    + specialize (IH (tr ++ [(c0, None)])).
      destruct (run_calls w (tr ++ [(c0, None)]) cs) as [evs r].
      simpl in *. intros [H|H]; [discriminate|].
      destruct (IH H) as (-> & n & Hn & Hm & Hevs). split; [reflexivity|].
      exists (S n). simpl. rewrite Hm, Hevs. auto.
Qed.

Lemma run_calls_subset (w : world) (cs : list call) (P : call -> bool) :
  forallb P cs = true ->
  forall tr, forallb (fun ev => P (fst ev)) (fst (run_calls w tr cs)) = true.
Proof.
  induction cs as [|c cs IH]; intros H tr; simpl in *.
  - reflexivity.
  - apply andb_prop in H as [Hc Hcs].
    destruct (raises w tr c) as [e|]; simpl.
    + rewrite Hc. reflexivity.
    + specialize (IH Hcs (tr ++ [(c, None)])).
      destruct (run_calls w (tr ++ [(c, None)]) cs) as [evs r].
      simpl in *. rewrite Hc, IH. reflexivity.
Qed.

Lemma closes_due_close (v : locals) : forallb is_close (closes_due v) = true.
Proof. destruct v as [[] [] []]; reflexivity. Qed.

(** ** The whole coroutine *)

Lemma run_test_of_eq (w : world) (sc : script) :
  run_test_of w sc fresh
  = try_finally (block (body_of w sc)) (teardown w) fresh.
Proof. destruct sc; reflexivity. Qed.

(** [run_test] is its [try] suite followed by the close calls that are due,
    up to the first that raises; a raising close call decides the outcome. *)
Lemma run_test_unfold (w : world) (sc : script) (s1 : state)
      (r1 : result unit) :
  block (body_of w sc) fresh = (s1, r1) ->
  run_test_of w sc fresh =
  ({| vars := vars s1;
      trace := trace s1
               ++ fst (run_calls w (trace s1) (closes_due (vars s1))) |},
   match snd (run_calls w (trace s1) (closes_due (vars s1))) with
   | Ok _ => r1
   | Raise e => Raise e
   end).
Proof.
  intros Hb. rewrite run_test_of_eq. unfold try_finally. rewrite Hb.
  rewrite teardown_run_calls.
  destruct (run_calls w (trace s1) (closes_due (vars s1))) as [td [[]|e]];
    reflexivity.
Qed.

Lemma class_of_call (c : call) :
  is_acquire c || is_step_call c = true ->
  is_close c = false /\ is_mouse_wheel c = false.
Proof. destruct c; simpl; intros H; try discriminate; auto. Qed.

Lemma step_events_In (evs : list event) (ev : event) :
  step_events evs = true -> In ev evs -> is_step_call (fst ev) = true.
Proof.
  unfold step_events. rewrite forallb_forall. intros H Hin. apply (H ev Hin).
Qed.

(** The [try] suite makes acquisition and step calls only. *)
Lemma body_calls (w : world) (sc : script) (ev : event) :
  In ev (trace (fst (block (body_of w sc) fresh))) ->
  is_acquire (fst ev) || is_step_call (fst ev) = true.
Proof.
  destruct (body_cases w sc) as [e|e|e|evs r Hevs]; simpl;
    try (intuition (subst; reflexivity)).
  intros [<-|[<-|[<-|Hin]]]; try reflexivity.
  rewrite (step_events_In evs ev Hevs Hin). apply orb_true_r.
Qed.

Lemma close_calls_app (a b : list event) :
  close_calls (a ++ b) = close_calls a ++ close_calls b.
Proof. unfold close_calls. rewrite map_app, filter_app. reflexivity. Qed.

Lemma close_calls_none (tr : list event) :
  (forall ev, In ev tr -> is_close (fst ev) = false) -> close_calls tr = [].
Proof.
  unfold close_calls. induction tr as [|ev tr IH]; intros H; simpl.
  - reflexivity.
  - rewrite (H ev (or_introl eq_refl)). apply IH.
    intros ev' Hin. apply H. right. exact Hin.
Qed.

Lemma close_calls_all (td : list event) :
  close_events td = true -> close_calls td = map fst td.
Proof.
  unfold close_calls, close_events.
  induction td as [|ev td IH]; simpl; intros H.
  - reflexivity.
  - apply andb_prop in H as [-> H]. rewrite (IH H). reflexivity.
Qed.

Lemma body_no_close (w : world) (sc : script) :
  close_calls (trace (fst (block (body_of w sc) fresh))) = [].
Proof.
  apply close_calls_none. intros ev Hin.
  apply (class_of_call (fst ev)), (body_calls w sc ev Hin).
Qed.

Lemma teardown_events_close (w : world) (tr : list event) (v : locals) :
  close_events (fst (run_calls w tr (closes_due v))) = true.
Proof. apply run_calls_subset, closes_due_close. Qed.

Lemma no_close_raised_app (a b : list event) :
  no_close_raised (a ++ b) = true -> no_close_raised b = true.
Proof.
  unfold no_close_raised. rewrite forallb_app. intros H.
  apply andb_prop in H as [_ H]. exact H.
Qed.

Lemma close_events_not_raised (td : list event) :
  close_events td = true -> no_close_raised td = true ->
  forallb (fun ev => negb (raised ev)) td = true.
Proof.
  unfold close_events, no_close_raised.
  induction td as [|ev td IH]; simpl; intros H1 H2.
  - reflexivity.
  - apply andb_prop in H1 as [Hc H1]. apply andb_prop in H2 as [Hr H2].
    rewrite Hc in Hr. simpl in Hr. rewrite Hr, (IH H1 H2). reflexivity.
Qed.

(** The locals tell which acquisition calls returned. *)
Lemma locals_reflect_acquisition (w : world) (sc : script) :
  let s1 := fst (block (body_of w sc) fresh) in
  (pw (vars s1) <> None <-> In (async_playwright_start, None) (trace s1))
  /\ (browser (vars s1) <> None <-> In (launch, None) (trace s1))
  /\ (context (vars s1) <> None <-> In (new_context, None) (trace s1)).
Proof.
  destruct (body_cases w sc) as [e|e|e|evs r Hevs]; simpl;
    repeat split; intros H; try discriminate; auto;
    try (exfalso; apply H; reflexivity);
    repeat match goal with
           | H : _ \/ _ |- _ => destruct H as [H|H]
           | H : (_, _) = (_, _) |- _ => discriminate H
           | H : False |- _ => destruct H
           end.
Qed.

(** * The claims *)

(** ** C1: teardown on every exit path *)

(** A run of TC005 in which [context.close()] raises: the browser and the
    engine were acquired, yet neither [browser.close()] nor [pw.stop()] is
    ever called. *)
Lemma C1_close_failure_skips_browser :
  let run := TC005.run_test (failing is_context_close Error) fresh in
  browser (vars (fst run)) = Some browser_obj
  /\ pw (vars (fst run)) = Some playwright_obj
  /\ In (launch, None) (trace (fst run))
  /\ close_calls (trace (fst run)) = [context_close]
  /\ close_calls (trace (fst run)) <> closes_due (vars (fst run)).
Proof.
  vm_compute. repeat split; auto 10. discriminate.
Qed.

(** C1 (amended): in every run of every script in which no close call
    itself raises, whatever way the [try] suite ends (normally, by a failed
    assertion, or by an exception raised anywhere, acquisition included),
    the [finally] suite runs once, after the [try] suite: the close calls of
    the whole run are exactly those of the resources whose variable is set,
    each once, in the order context, browser, engine; a variable is set
    exactly when its acquisition call returned, so a resource that was never
    acquired is not closed; and the outcome of the [try] suite is the
    outcome of [run_test]. *)
Theorem C1_teardown_closes_acquired (w : world) (sc : script) :
  let body := block (body_of w sc) fresh in
  let run := run_test_of w sc fresh in
  no_close_raised (trace (fst run)) = true ->
  (exists td, trace (fst run) = trace (fst body) ++ td
              /\ map fst td = closes_due (vars (fst body)))
  /\ close_calls (trace (fst run)) = closes_due (vars (fst body))
  /\ (pw (vars (fst body)) <> None
      <-> In (async_playwright_start, None) (trace (fst body)))
  /\ (browser (vars (fst body)) <> None
      <-> In (launch, None) (trace (fst body)))
  /\ (context (vars (fst body)) <> None
      <-> In (new_context, None) (trace (fst body)))
  /\ snd run = snd body.
Proof.
  intros body run Hok.
  pose proof (locals_reflect_acquisition w sc) as (Hpw & Hbr & Hctx).
  pose proof (body_no_close w sc) as Hnc.
  fold body in Hpw, Hbr, Hctx, Hnc.
  destruct body as [s1 r1] eqn:Hb. simpl in *.
  assert (Hrun : run = run_test_of w sc fresh) by reflexivity.
  rewrite (run_test_unfold w sc s1 r1 Hb) in Hrun.
  rewrite Hrun in *. simpl in *.
  pose proof (teardown_events_close w (trace s1) (vars s1)) as Hcl.
  apply no_close_raised_app in Hok.
  destruct (run_calls_all w (closes_due (vars s1)) (trace s1)
              (close_events_not_raised _ Hcl Hok)) as [Htd Hr].
  repeat split; try (apply Hpw || apply Hbr || apply Hctx).
  - eexists; split; [reflexivity | exact Htd].
  - rewrite close_calls_app, Hnc, (close_calls_all _ Hcl). exact Htd.
  - rewrite Hr. reflexivity.
Qed.

Lemma C1_teardown_closes_acquired_witness :
  close_calls (trace (fst (run_test_of calm tc005 fresh)))
  = closes_due (vars (fst (block (body_of calm tc005) fresh))).
Proof.
  apply (C1_teardown_closes_acquired calm tc005). reflexivity.
Defined.

(** ** C4: errors raised by the teardown itself *)

(** A run of TC005 in which [context.close()] raises: the [try] suite had
    ended with [NameError], but [run_test] ends with the teardown's
    [Error], and [browser.close()] and [pw.stop()] are not executed. *)
Lemma C4_teardown_error_not_swallowed :
  let w := failing is_context_close Error in
  snd (block (body_of w tc005) fresh) = Raise (NameError "window")
  /\ snd (TC005.run_test w fresh) = Raise Error
  /\ close_calls (trace (fst (TC005.run_test w fresh))) = [context_close]
  /\ closes_due (vars (fst (block (body_of w tc005) fresh)))
     = [context_close; browser_close; pw_stop].
Proof. vm_compute. auto. Qed.

(** C4 (amended): an error raised by a close call of the teardown is not
    swallowed.  In every run of every script, if a close call raises [e]
    then [run_test] ends with [e], in place of whatever the [try] suite
    ended with; that call is the last thing the run does, so the close
    calls that were due after it are not made. *)
Theorem C4_teardown_error_propagates (w : world) (sc : script)
        (c : call) (e : exn) :
  let body := block (body_of w sc) fresh in
  let run := run_test_of w sc fresh in
  is_close c = true ->
  In (c, Some e) (trace (fst run)) ->
  snd run = Raise e
  /\ (exists pre, trace (fst run) = pre ++ [(c, Some e)])
  /\ (exists n, nth_error (closes_due (vars (fst body))) n = Some c
                /\ close_calls (trace (fst run))
                   = firstn (S n) (closes_due (vars (fst body)))).
Proof.
  intros body run Hc Hin.
  pose proof (body_no_close w sc) as Hnc.
  pose proof (body_calls w sc (c, Some e)) as Hbody.
  fold body in Hnc, Hbody.
  destruct body as [s1 r1] eqn:Hb. simpl in *.
  assert (Hrun : run = run_test_of w sc fresh) by reflexivity.
  rewrite (run_test_unfold w sc s1 r1 Hb) in Hrun.
  rewrite Hrun in *. simpl in *.
  pose proof (teardown_events_close w (trace s1) (vars s1)) as Hcl.
  apply in_app_or in Hin as [Hin|Hin].
  - apply Hbody, class_of_call in Hin as [Hin _]. congruence.
  - destruct (run_calls_raise w _ c e _ Hin) as (Hr & n & Hn & Hm & Htd).
    rewrite Hr. split; [reflexivity|]. split.
    + rewrite Htd, app_assoc. eexists; reflexivity.
    + exists n. split; [exact Hn|].
      rewrite close_calls_app, Hnc, (close_calls_all _ Hcl). exact Hm.
Qed.

Lemma C4_teardown_error_propagates_witness :
  snd (run_test_of (failing is_context_close Error) tc005 fresh) = Raise Error.
Proof.
  apply (C4_teardown_error_propagates
           (failing is_context_close Error) tc005 context_close Error).
  - reflexivity.
  - vm_compute. auto 20.
Defined.

(** ** Exceptions that nothing catches *)

Lemma run_calls_raise_inv (w : world) (cs : list call) (e : exn) :
  forall tr,
    snd (run_calls w tr cs) = Raise e ->
    exists c, In c cs /\ In (c, Some e) (fst (run_calls w tr cs)).
Proof.
  induction cs as [|c cs IH]; intros tr; simpl.
  - discriminate.
  - destruct (raises w tr c) as [e0|]; simpl.
    + intros H. injection H as ->. exists c. auto.
    + specialize (IH (tr ++ [(c, None)])).
      destruct (run_calls w (tr ++ [(c, None)]) cs) as [evs r].
      simpl in *. intros H. destruct (IH H) as (c' & Hc' & Hin).
      exists c'. auto.
Qed.

(** When the statements before position [k] of a script complete and
    statement [k] raises [e], the [try] suite ends there; all that follows
    is the teardown, and [run_test] ends with [e] unless a close call raises
    in turn. *)
Lemma script_aborts (w : world) (sc : script) (k : nat) (st : M unit)
      (s1 s2 : state) (e : exn) :
  nth_error (body_of w sc) k = Some st ->
  block (firstn k (body_of w sc)) fresh = (s1, Ok tt) ->
  st s1 = (s2, Raise e) ->
  block (body_of w sc) fresh = (s2, Raise e)
  /\ (exists td, trace (fst (run_test_of w sc fresh)) = trace s2 ++ td
                 /\ close_events td = true)
  /\ (snd (run_test_of w sc fresh) = Raise e
      \/ exists c e', is_close c = true
                      /\ In (c, Some e') (trace (fst (run_test_of w sc fresh)))
                      /\ snd (run_test_of w sc fresh) = Raise e').
Proof.
  intros Hk Hpre Hst.
  pose proof (block_abort _ k st fresh s1 s2 e Hk Hpre Hst) as Hb.
  split; [exact Hb|].
  rewrite (run_test_unfold w sc s2 _ Hb). simpl.
  pose proof (teardown_events_close w (trace s2) (vars s2)) as Hcl.
  split.
  - eexists; split; [reflexivity | exact Hcl].
  - destruct (snd (run_calls w (trace s2) (closes_due (vars s2))))
      as [[]|e'] eqn:Hr; [left; reflexivity|].
    right. destruct (run_calls_raise_inv w _ e' _ Hr) as (c & Hc & Hin).
    exists c, e'. repeat split.
    + pose proof (closes_due_close (vars s2)) as H.
      rewrite forallb_forall in H. apply H, Hc.
    + apply in_or_app. right. exact Hin.
Qed.

(** ** C2: a Click on an element that is not there *)

(** TC006 when the captcha checkbox is absent, so that the click of lines
    49-51 times out: no assertion of lines 54-62 is evaluated, the three
    close calls follow the click immediately, and [run_test] raises.  TC014
    likewise: its first click (step 5 of 9) fails and none of the three
    clicks after it is attempted. *)
Lemma C2_click_failure_stops_scenario :
  let w := failing is_click TimeoutError in
  snd (TC006.run_test w fresh) = Raise TimeoutError
  /\ calls_where is_text_content (trace (fst (TC006.run_test w fresh))) = []
  /\ trace (fst (TC006.run_test w fresh))
     = session_events
       ++ [(set_default_timeout 5000, None); (new_page, None);
           (goto "http://localhost:8081" (Some "commit") 10000, None);
           (page_wait_for_load_state "domcontentloaded" 3000, None);
           (frame_wait_for_load_state 0 "domcontentloaded" 3000, None);
           (context_pages_last, None); (wait_for_timeout 3000, None);
           (click TC006.captcha_checkbox 5000, Some TimeoutError);
           (context_close, None); (browser_close, None); (pw_stop, None)]
  /\ snd (TC014.run_test w fresh) = Raise TimeoutError
  /\ calls_where is_click (trace (fst (TC014.run_test w fresh)))
     = [(click TC014.captcha_checkbox 5000, Some TimeoutError)].
Proof.
  vm_compute. repeat split.
Qed.

(** C2 (amended): in every run of every script, when the statements before
    a Click step complete and the Click step raises (its locator resolves
    nothing within the click timeout), nothing is recorded and execution
    does not continue: the [try] suite ends at that step with the
    exception, the only calls made afterwards are the close calls of the
    teardown, and [run_test] raises. *)
Theorem C2_click_failure_aborts (w : world) (sc : script) (k : nat)
        (sel : selector) (s1 s2 : state) (e : exn) :
  nth_error (body_of w sc) k = Some (click_step w sel) ->
  block (firstn k (body_of w sc)) fresh = (s1, Ok tt) ->
  click_step w sel s1 = (s2, Raise e) ->
  block (body_of w sc) fresh = (s2, Raise e)
  /\ (exists td, trace (fst (run_test_of w sc fresh)) = trace s2 ++ td
                 /\ close_events td = true)
  /\ (exists e', snd (run_test_of w sc fresh) = Raise e').
Proof.
  intros Hk Hpre Hst.
  destruct (script_aborts w sc k _ s1 s2 e Hk Hpre Hst) as (Hb & Htd & Hr).
  repeat split; auto.
  destruct Hr as [Hr|(c & e' & _ & _ & Hr)]; eauto.
Qed.

Lemma C2_click_failure_aborts_witness :
  exists e', snd (run_test_of (failing is_click TimeoutError) tc006 fresh)
             = Raise e'.
Proof.
  eapply (C2_click_failure_aborts (failing is_click TimeoutError) tc006 8
            TC006.captcha_checkbox _ _ TimeoutError).
  - reflexivity.
  - vm_compute. reflexivity.
  - vm_compute. reflexivity.
Defined.

(** ** Calls that raise and what follows them *)

Lemma unit_split {A} (a b : list A) (x y : A) :
  [x] = a ++ y :: b -> a = [] /\ y = x /\ b = [].
Proof.
  destruct a as [|z a]; simpl; intros H; injection H as -> H.
  - subst b. auto.
  - destruct a; discriminate H.
Qed.

Lemma app_split {A} (l1 l2 a b : list A) (x : A) :
  l1 ++ l2 = a ++ x :: b ->
  (exists b1, l1 = a ++ x :: b1 /\ b = b1 ++ l2)
  \/ (exists a2, a = l1 ++ a2 /\ l2 = a2 ++ x :: b).
Proof.
  revert a; induction l1 as [|y l1 IH]; intros a H; simpl in H.
  - right. exists a. auto.
  - destruct a as [|z a]; simpl in H; injection H as -> H.
    + left. exists l1. subst b. auto.
    + destruct (IH a H) as [(b1 & -> & ->)|(a2 & -> & ->)].
      * left. exists b1. auto.
      * right. exists a2. auto.
Qed.

Lemma guarded_silent (w : world) {A} (m : M A) :
  (forall s, trace (fst (m s)) = trace s) -> guarded w m.
Proof.
  intros H s. exists []. rewrite H, app_nil_r. split; [reflexivity|].
  intros a ev b Habs. destruct a; discriminate Habs.
Qed.

Lemma guarded_bind (w : world) {A B} (m : M A) (f : A -> M B) :
  guarded w m -> (forall a, guarded w (f a)) -> guarded w (bind m f).
Proof.
  intros Hm Hf s. unfold bind.
  destruct (Hm s) as (evs1 & Htr1 & Hsp1).
  destruct (m s) as [s1 [x|e]]; simpl in Htr1, Hsp1.
  - destruct (Hf x s1) as (evs2 & Htr2 & Hsp2).
    exists (evs1 ++ evs2). rewrite Htr2, Htr1, app_assoc.
    split; [reflexivity|].
    intros a ev b Heq.
    destruct (app_split _ _ _ _ _ Heq) as [(b1 & H1 & ->)|(a2 & -> & H2)].
    + destruct (Hsp1 a ev b1 H1) as [Hgo|[_ []]]. left. exact Hgo.
    + rewrite app_assoc, <- Htr1. apply Hsp2, H2.
  - exists evs1. auto.
Qed.

Lemma guarded_api (w : world) (c : call) :
  is_text_content c = false -> guarded w (api w c).
Proof.
  intros Hc s. exists [(c, raises w (trace s) c)].
  split; [reflexivity|].
  intros a ev b Heq. apply unit_split in Heq as (-> & -> & ->).
  unfold api. simpl. destruct (raises w (trace s) c) as [e|].
  - right. split; reflexivity.
  - left. split; [exact I|].
    intros l Hl. simpl in Hl. subst c. discriminate Hc.
Qed.

(** The one place where a raising call goes on: a load-state wait inside
    [try ... except async_api.Error: pass]. *)
Lemma guarded_wait (w : world) (c : call) :
  is_load_wait c = true -> guarded w (try_except_Error_pass (api w c)).
Proof.
  intros Hc s. exists [(c, raises w (trace s) c)].
  assert (Hnt : forall tr ev, fst ev = c -> passed w tr ev).
  { intros tr ev Hev l Hl. rewrite Hev in Hl. rewrite Hl in Hc.
    discriminate Hc. }
  unfold try_except_Error_pass, api. simpl.
  destruct (raises w (trace s) c) as [e|]; simpl.
  - destruct (is_async_api_Error e) eqn:He; simpl;
      (split; [reflexivity|]); intros a ev b Heq;
      apply unit_split in Heq as (-> & -> & ->).
    + left. split; [split; assumption | apply Hnt; reflexivity].
    + right. split; reflexivity.
  - split; [reflexivity|]. intros a ev b Heq.
    apply unit_split in Heq as (-> & -> & ->).
    left. split; [exact I | apply Hnt; reflexivity].
Qed.

Lemma guarded_text_assertion (w : world) (t : string) :
  guarded w (TC006.text_assertion w t).
Proof.
  intros s. exists [(text_content ("text=" ++ t),
                     raises w (trace s) (text_content ("text=" ++ t)))].
  unfold TC006.text_assertion, bind, get_text_content, assert_in, py_assert.
  simpl.
  destruct (raises w (trace s) _) as [e|]; simpl.
  - split; [reflexivity|]. intros a ev b Heq.
    apply unit_split in Heq as (-> & -> & ->).
    right. split; reflexivity.
  - destruct (text w (trace s) _) as [h|] eqn:Ht; simpl;
      [destruct (contains t h) eqn:Hc; simpl|];
      (split; [reflexivity|]); intros a ev b Heq;
      apply unit_split in Heq as (-> & -> & ->); rewrite app_nil_r.
    + left. split; [exact I|]. intros l Hl. simpl in Hl.
      injection Hl as <-. exists t, h. auto.
    + right. split; [reflexivity|]. simpl. rewrite Ht. reflexivity.
    + right. split; [reflexivity|]. simpl. rewrite Ht. reflexivity.
Qed.

Lemma guarded_for_each (w : world) {A} (xs : list A) (f : A -> M unit) :
  (forall x, guarded w (f x)) -> guarded w (for_each xs f).
Proof.
  intros Hf. induction xs as [|x xs IH]; simpl.
  - apply guarded_silent. reflexivity.
  - apply guarded_bind; auto.
Qed.

Lemma guarded_block (w : world) (stmts : list (M unit)) :
  Forall (guarded w) stmts -> guarded w (block stmts).
Proof.
  induction 1 as [|st l Hst _ IH]; simpl.
  - apply guarded_silent. reflexivity.
  - apply guarded_bind; auto.
Qed.

Lemma guarded_py_assert (w : world) (b : bool) (msg : string) :
  guarded w (py_assert b msg).
Proof. apply guarded_silent. intros s. destruct b; reflexivity. Qed.

Lemma guarded_scroll_step (w : world) (names : list string) :
  guarded w (scroll_step w names).
Proof.
  apply guarded_silent. intros s. unfold scroll_step, bind, load_name.
  destruct (existsb _ _); reflexivity.
Qed.

Lemma guarded_click_step (w : world) (sel : selector) :
  guarded w (click_step w sel).
Proof.
  unfold click_step.
  repeat (apply guarded_bind; [|intros _]); apply guarded_api; reflexivity.
Qed.

Lemma guarded_wait_frames (w : world) : guarded w (wait_frames w).
Proof.
  unfold wait_frames. apply guarded_bind.
  - apply guarded_silent. reflexivity.
  - intros fs. apply guarded_for_each. intros f.
    apply guarded_wait. reflexivity.
Qed.

Lemma guarded_acquire (w : world) : Forall (guarded w) (acquire w).
Proof.
  repeat constructor;
    (apply guarded_bind;
     [apply guarded_api; reflexivity
     | intros _; apply guarded_silent; reflexivity]).
Qed.

Lemma guarded_TC013_assertion_block (w : world) :
  guarded w TC013.assertion_block.
Proof.
  apply guarded_block. repeat constructor; try apply guarded_py_assert.
  apply guarded_for_each. intros f. apply guarded_py_assert.
Qed.

Ltac guarded_stmt :=
  first [ apply guarded_scroll_step
        | apply guarded_click_step
        | apply guarded_wait_frames
        | apply guarded_TC013_assertion_block
        | apply guarded_py_assert
        | apply guarded_wait; reflexivity
        | apply guarded_api; reflexivity
        | apply guarded_block; repeat constructor;
          apply guarded_text_assertion ].

(** The [try] suite of every script is guarded: outside the load-state
    waits nothing is wrapped in a [try/except]. *)
Lemma guarded_body (w : world) (sc : script) :
  guarded w (block (body_of w sc)).
Proof.
  apply guarded_block. unfold body_of.
  apply Forall_app; split; [apply guarded_acquire|].
  destruct sc; repeat constructor; guarded_stmt.
Qed.

Lemma close_events_app (a b : list event) :
  close_events (a ++ b) = true ->
  close_events a = true /\ close_events b = true.
Proof.
  unfold close_events. rewrite forallb_app. apply andb_prop.
Qed.

(** Where an event of a run sits: among the close calls of the teardown,
    or in the [try] suite, where it goes on or ends the suite. *)
Lemma run_event_cases (w : world) (sc : script) (pre post : list event)
      (ev : event) :
  trace (fst (run_test_of w sc fresh)) = pre ++ ev :: post ->
  (is_close (fst ev) = true /\ close_events post = true)
  \/ (exists post1 td,
        post = post1 ++ td /\ close_events td = true
        /\ trace (fst (block (body_of w sc) fresh)) = pre ++ ev :: post1
        /\ (goes_on w pre ev
            \/ (post1 = []
                /\ ends_with w pre ev (snd (block (body_of w sc) fresh))))).
Proof.
  destruct (guarded_body w sc fresh) as (evs & Htr & Hsp).
  destruct (block (body_of w sc) fresh) as [s1 r1] eqn:Hb.
  rewrite (run_test_unfold w sc s1 r1 Hb). simpl in *.
  pose proof (teardown_events_close w (trace s1) (vars s1)) as Hcl.
  set (td := fst (run_calls w (trace s1) (closes_due (vars s1)))) in *.
  intros Heq.
  destruct (app_split _ _ _ _ _ Heq) as [(b1 & H1 & ->)|(a2 & -> & H2)].
  - right. exists b1, td. repeat split; auto.
    apply Hsp. rewrite <- Htr. exact H1.
  - left. rewrite H2 in Hcl. apply close_events_app in Hcl as [_ Hcl].
    simpl in Hcl. apply andb_prop in Hcl as [Hc Hpost]. auto.
Qed.

Lemma run_raises_when_body_does (w : world) (sc : script) (e : exn) :
  snd (block (body_of w sc) fresh) = Raise e ->
  exists e', snd (run_test_of w sc fresh) = Raise e'.
Proof.
  destruct (block (body_of w sc) fresh) as [s1 r1] eqn:Hb. simpl.
  intros ->. rewrite (run_test_unfold w sc s1 _ Hb). simpl.
  destruct (snd (run_calls _ _ _)) as [[]|e']; eauto.
Qed.

(** ** C3: a navigation that times out *)




(** ** C5: the scroll steps *)

(** Where the first scroll step of each script that has one sits in its
    [try] suite. *)
Lemma first_scroll_positions (w : world) :
  nth_error (body_of w tc005) 8 = Some (scroll_step w (names_of tc005))
  /\ nth_error (body_of w tc008) 8 = Some (scroll_step w (names_of tc008))
  /\ nth_error (body_of w tc011) 8 = Some (scroll_step w (names_of tc011))
  /\ nth_error (body_of w tc013) 9 = Some (scroll_step w (names_of tc013)).
Proof. repeat split. Qed.

Lemma run_no_wheel (w : world) (sc : script) (ev : event) :
  In ev (trace (fst (run_test_of w sc fresh))) -> is_mouse_wheel (fst ev) = false.
Proof.
  destruct (block (body_of w sc) fresh) as [s1 r1] eqn:Hb.
  rewrite (run_test_unfold w sc s1 r1 Hb). simpl. intros Hin.
  apply in_app_or in Hin as [Hin|Hin].
  - pose proof (body_calls w sc ev) as H. rewrite Hb in H.
    apply (class_of_call (fst ev)), H, Hin.
  - pose proof (teardown_events_close w (trace s1) (vars s1)) as Hcl.
    unfold close_events in Hcl. rewrite forallb_forall in Hcl.
    specialize (Hcl ev Hin). destruct (fst ev); try discriminate; reflexivity.
Qed.

(** C5: [window] is bound nowhere in a script, so in every run of every
    script that reaches a scroll step [page.mouse.wheel(0,
    window.innerHeight)] (the first one in particular) the [try] suite ends
    at that step with [NameError], in the very state in which the step was
    reached: no wheel call is made, in the whole run, and no statement after
    that step is ever passed. *)
Theorem C5_scroll_raises_NameError (w : world) (sc : script) (k : nat)
        (s1 : state) :
  nth_error (body_of w sc) k = Some (scroll_step w (names_of sc)) ->
  block (firstn k (body_of w sc)) fresh = (s1, Ok tt) ->
  existsb (String.eqb "window") (names_of sc) = false
  /\ block (body_of w sc) fresh = (s1, Raise (NameError "window"))
  /\ (forall ev, In ev (trace (fst (run_test_of w sc fresh))) ->
                 is_mouse_wheel (fst ev) = false)
  /\ (forall j s', (k < j)%nat ->
                   block (firstn j (body_of w sc)) fresh <> (s', Ok tt)).
Proof.
  intros Hk Hpre.
  pose proof (window_unbound sc) as Hw.
  repeat split.
  - exact Hw.
  - apply (block_abort _ k _ fresh s1 s1 _ Hk Hpre).
    apply scroll_step_raises, Hw.
  - apply run_no_wheel.
  - intros j s' Hlt. apply (block_never_passes _ k j _ Hk); [|exact Hlt].
    intros s. exists s, (NameError "window").
    apply scroll_step_raises, Hw.
Qed.

Lemma C5_scroll_raises_NameError_witness :
  snd (block (body_of calm tc013) fresh) = Raise (NameError "window").
Proof.
  destruct (C5_scroll_raises_NameError calm tc013 9
              (fst (block (firstn 9 (body_of calm tc013)) fresh)))
    as (_ & H & _).
  - reflexivity.
  - vm_compute. reflexivity.
  - rewrite H. reflexivity.
Defined.

(** ** C7: the hardcoded failing assertion *)

(** TC014 when every step goes through and [context.close()] then raises:
    all the statements before the [assert False] complete, and [run_test]
    raises the teardown's [Error], not [AssertionError]. *)
Lemma C7_teardown_error_replaces_AssertionError :
  let w := failing is_context_close Error in
  snd (block (firstn (assert_position w tc014) (body_of w tc014)) fresh) = Ok tt
  /\ snd (TC014.run_test w fresh) = Raise Error
  /\ snd (TC014.run_test w fresh)
     <> Raise (AssertionError TC014.failure_message).
Proof. vm_compute. repeat split. discriminate. Qed.

Lemma assert_False_position (w : world) (sc : script) (msg : string) :
  failure_message_of sc = Some msg ->
  nth_error (body_of w sc) (assert_position w sc) = Some (assert_False msg).
Proof.
  destruct sc; intros H; try discriminate; injection H as <-; reflexivity.
Qed.

(** C7 (amended): in TC005, TC008, TC011 and TC014 the last statement before
    the dead [sleep] is an unconditional [assert False]; in no run does
    [run_test] complete successfully; and in every run in which all the
    statements before the assertion complete, the [try] suite ends there
    with [AssertionError], which is what [run_test] raises unless a close
    call of the teardown raises, whose exception then replaces it. *)
Theorem C7_assert_False_terminal (w : world) (sc : script) (msg : string) :
  failure_message_of sc = Some msg ->
  nth_error (body_of w sc) (assert_position w sc) = Some (assert_False msg)
  /\ (forall s', run_test_of w sc fresh <> (s', Ok tt))
  /\ (forall s1,
        block (firstn (assert_position w sc) (body_of w sc)) fresh
        = (s1, Ok tt) ->
        block (body_of w sc) fresh = (s1, Raise (AssertionError msg))
        /\ (snd (run_test_of w sc fresh) = Raise (AssertionError msg)
            \/ exists c e,
                 is_close c = true
                 /\ In (c, Some e) (trace (fst (run_test_of w sc fresh)))
                 /\ snd (run_test_of w sc fresh) = Raise e)).
Proof.
  intros Hmsg. pose proof (assert_False_position w sc msg Hmsg) as Hk.
  split; [exact Hk|]. split.
  - intros s'.
    destruct (block (body_of w sc) fresh) as [s1 r1] eqn:Hb.
    rewrite (run_test_unfold w sc s1 r1 Hb).
    destruct r1 as [[]|e].
    + exfalso. apply (block_never_ok _ _ _ Hk) with (s := fresh) (s' := s1);
        [|exact Hb].
      intros s. exists s, (AssertionError msg). reflexivity.
    + destruct (snd (run_calls _ _ _)) as [[]|e']; intros H; discriminate H.
  - intros s1 Hpre.
    destruct (script_aborts w sc _ _ s1 s1 _ Hk Hpre
                (assert_False_raises msg s1)) as (Hb & _ & Hr).
    split; assumption.
Qed.

Lemma C7_assert_False_terminal_witness :
  snd (block (body_of calm tc014) fresh)
  = Raise (AssertionError TC014.failure_message).
Proof.
  destruct (C7_assert_False_terminal calm tc014 TC014.failure_message)
    as (_ & _ & H); [reflexivity|].
  destruct (H (fst (block (firstn 16 (body_of calm tc014)) fresh)))
    as [Hb _]; [vm_compute; reflexivity|].
  rewrite Hb. reflexivity.
Defined.

(** ** C8: the assertion suites *)

(** TC006 on a page where the click goes through and the offline message
    is there in another letter case: the first assertion (line 56) fails,
    and the locators of the second and third assertions are never
    queried. *)
Lemma C8_failed_assertion_skips_the_rest :
  snd (TC006.run_test lowercase_page fresh) = Raise (AssertionError EmptyString)
  /\ calls_where is_text_content (trace (fst (TC006.run_test lowercase_page fresh)))
     = [(text_content ("text=" ++ TC006.offline_text), None)]
  /\ length (TC006.assertions lowercase_page) = 3%nat.
Proof. vm_compute. repeat split. Qed.

(** C8 (amended): the assertions of a script are evaluated one after the
    other, not independently.  In every run of every script, when a
    [text_content()] call is made and the assertion on it does not pass
    (the call raises, or returns [None], or returns a string that does not
    contain the expected text), that call is the last thing the [try] suite
    does: the suite ends with the exception of the call, [TypeError] or
    [AssertionError] respectively, no later assertion is evaluated, the
    only calls made afterwards are the close calls of the teardown, and
    [run_test] raises. *)
Theorem C8_first_failure_ends_evaluation (w : world) (sc : script)
        (l : string) (o : option exn) (pre post : list event) :
  trace (fst (run_test_of w sc fresh)) = pre ++ (text_content l, o) :: post ->
  ~ (exists t h, l = ("text=" ++ t)%string /\ o = None
                 /\ text w pre l = Some h /\ contains t h = true) ->
  trace (fst (block (body_of w sc) fresh)) = pre ++ [(text_content l, o)]
  /\ (exists e',
        snd (block (body_of w sc) fresh) = Raise e'
        /\ match o with
           | Some e => e' = e
           | None =>
               match text w pre l with
               | None => e' = TypeError
               | Some _ => e' = AssertionError EmptyString
               end
           end)
  /\ close_events post = true
  /\ (exists e', snd (run_test_of w sc fresh) = Raise e').
Proof.
  intros Hrun Hfail.
  destruct (run_event_cases w sc pre post _ Hrun)
    as [[Hc _]|(post1 & td & -> & Htd & Hb & [[_ Hpass]|[-> Hend]])].
  - discriminate Hc.
  - exfalso. apply Hfail. apply (Hpass l eq_refl).
  - destruct (snd (block (body_of w sc) fresh)) as [[]|e'] eqn:Hr;
      [destruct Hend|].
    simpl in Hend.
    split; [exact Hb|]. split; [exists e'; split; [reflexivity|]|].
    + destruct o; exact Hend.
    + split; [exact Htd|].
      apply (run_raises_when_body_does w sc e' Hr).
Qed.

Lemma C8_first_failure_ends_evaluation_witness :
  close_events [(context_close, @None exn); (browser_close, None);
                (pw_stop, None)] = true
  /\ exists e', snd (run_test_of lowercase_page tc006 fresh) = Raise e'.
Proof.
  apply (C8_first_failure_ends_evaluation lowercase_page tc006
           ("text=" ++ TC006.offline_text) None
           (session_events
            ++ [(set_default_timeout 5000, None); (new_page, None);
                (initial_goto, None);
                (page_wait_for_load_state "domcontentloaded" 3000, None);
                (frame_wait 0, None);
                (context_pages_last, None); (wait_for_timeout 3000, None);
                (click TC006.captcha_checkbox 5000, None)])
           [(context_close, None); (browser_close, None); (pw_stop, None)]).
  - vm_compute. reflexivity.
  - intros (t & h & Hl & _ & Ht & Hc).
    simpl in Hl. injection Hl as <-.
    vm_compute in Ht. injection Ht as <-.
    vm_compute in Hc. discriminate Hc.
Defined.

(** ** C6: frames that never settle *)

(** A page with three frames: whether or not the second one times out, the
    loop of lines 41-45 ends the same way and leaves the same locals; the
    handler is [pass], so the timeout is kept nowhere. *)
Lemma C6_frame_timeout_not_recorded :
  In (frame_wait_for_load_state 1 "domcontentloaded" 3000, Some TimeoutError)
     (trace (fst (wait_frames slow_iframe fresh)))
  /\ snd (wait_frames slow_iframe fresh) = snd (wait_frames three_frames fresh)
  /\ vars (fst (wait_frames slow_iframe fresh))
     = vars (fst (wait_frames three_frames fresh)).
Proof. vm_compute. auto. Qed.

Lemma for_each_frames (w : world) (fs : list nat) :
  (forall tr f e,
     raises w tr (frame_wait_for_load_state f "domcontentloaded" 3000) = Some e ->
     is_async_api_Error e = true) ->
  forall s, exists evs,
    for_each fs (wait_frame_loaded w) s
    = ({| vars := vars s; trace := trace s ++ evs |}, Ok tt)
    /\ map fst evs
       = map (fun f => frame_wait_for_load_state f "domcontentloaded" 3000) fs.
Proof.
  intros Htol. induction fs as [|f fs IH]; intros s.
  - exists []. simpl. unfold ret. rewrite app_nil_r, state_eta. auto.
  - simpl. unfold bind, wait_frame_loaded at 1, try_except_Error_pass, api.
    set (c := frame_wait_for_load_state f "domcontentloaded" 3000).
    destruct (raises w (trace s) c) as [e|] eqn:He.
    + rewrite (Htol _ _ _ He).
      destruct (IH (log (c, Some e) s)) as (evs & -> & Hm).
      exists ((c, Some e) :: evs). simpl. rewrite <- app_assoc, Hm. auto.
    + destruct (IH (log (c, None) s)) as (evs & -> & Hm).
      exists ((c, None) :: evs). simpl. rewrite <- app_assoc, Hm. auto.
Qed.

(** C6 (amended): as long as the waits on frames fail only with exceptions
    of the [async_api.Error] family (timeouts are), the loop over
    [page.frames] catches and discards each of them: it waits on every
    frame of the enumerated list, in order, whatever happened to the frames
    before it, makes no other call, leaves the locals as they were and
    completes normally, so the scenario goes on. *)
Theorem C6_every_frame_is_waited_on (w : world) (s : state) :
  (forall tr f e,
     raises w tr (frame_wait_for_load_state f "domcontentloaded" 3000) = Some e ->
     is_async_api_Error e = true) ->
  exists evs,
    wait_frames w s = ({| vars := vars s; trace := trace s ++ evs |}, Ok tt)
    /\ map fst evs
       = map (fun f => frame_wait_for_load_state f "domcontentloaded" 3000)
             (frames w (trace s)).
Proof.
  intros Htol. unfold wait_frames, bind, page_frames.
  apply for_each_frames, Htol.
Qed.

Lemma C6_every_frame_is_waited_on_witness :
  exists evs,
    wait_frames slow_iframe fresh
    = ({| vars := no_locals; trace := evs |}, Ok tt)
    /\ map fst evs
       = [frame_wait_for_load_state 0 "domcontentloaded" 3000;
          frame_wait_for_load_state 1 "domcontentloaded" 3000;
          frame_wait_for_load_state 2 "domcontentloaded" 3000].
Proof.
  apply (C6_every_frame_is_waited_on slow_iframe fresh).
  intros tr f e.
  destruct f as [|[|f]]; simpl; intros H; try discriminate H.
  injection H as <-. reflexivity.
Defined.

(** ** C9: the browser cannot be launched *)

(** C9: in every run of every script in which [pw.chromium.launch] raises,
    the [try] suite ends right there: the run consists of the start of the
    engine, the failed launch and, as teardown, [pw.stop()] alone (there is
    no browser and no context to close), so no navigation or interaction
    call is ever made. *)
Theorem C9_launch_failure_aborts (w : world) (sc : script) (e : exn) :
  In (launch, Some e) (trace (fst (run_test_of w sc fresh))) ->
  block (body_of w sc) fresh
  = ({| vars := with_pw;
        trace := [(async_playwright_start, None); (launch, Some e)] |},
     Raise e)
  /\ (exists o,
        run_test_of w sc fresh
        = ({| vars := with_pw;
              trace := [(async_playwright_start, None); (launch, Some e);
                        (pw_stop, o)] |},
           Raise (match o with Some e' => e' | None => e end)))
  /\ (forall ev, In ev (trace (fst (run_test_of w sc fresh))) ->
                 is_step_call (fst ev) = false).
Proof.
  destruct (block (body_of w sc) fresh) as [s1 r1] eqn:Hb.
  rewrite (run_test_unfold w sc s1 r1 Hb).
  pose proof (teardown_events_close w (trace s1) (vars s1)) as Hcl.
  unfold close_events in Hcl. rewrite forallb_forall in Hcl.
  pose proof (body_cases w sc) as Hcases. rewrite Hb in Hcases.
  inversion Hcases as [e0|e0|e0|evs r Hevs]; subst; simpl in *.
  - intros [H|[]]; discriminate H.
  - destruct (raises w _ pw_stop) as [e'|] eqn:Hstop; simpl;
      (intros [H|[H|[H|[]]]]; try discriminate H; injection H as <-;
       split; [reflexivity|]; split;
       [|intros ev [<-|[<-|[<-|[]]]]; reflexivity]).
    + exists (Some e'). reflexivity.
    + exists None. reflexivity.
  - intros [H|[H|[H|H]]]; try discriminate H.
    apply Hcl in H. discriminate H.
  - intros [H|[H|[H|H]]]; try discriminate H.
    apply in_app_or in H as [H|H].
    + apply (step_events_In _ _ Hevs) in H. discriminate H.
    + apply Hcl in H. discriminate H.
Qed.

Lemma C9_launch_failure_aborts_witness :
  block (body_of (failing is_launch Error) tc005) fresh
  = ({| vars := with_pw;
        trace := [(async_playwright_start, None); (launch, Some Error)] |},
     Raise Error).
Proof.
  apply (C9_launch_failure_aborts (failing is_launch Error) tc005 Error).
  vm_compute. auto.
Defined.

(** ** C10: the assertions of TC013 *)

(** C10: the assertion suite of TC013 (lines 82-95) is the same computation
    whatever the world, reads nothing but its own constants and makes no
    call: from any two states it gives the same outcome, it leaves the
    state as it found it, and each of its assertions passes. *)
Theorem C10_constant_assertions_pass (w1 w2 : world) (s1 s2 : state) :
  nth_error (body_of w1 tc013) 14 = Some TC013.assertion_block
  /\ nth_error (body_of w2 tc013) 14 = Some TC013.assertion_block
  /\ snd (TC013.assertion_block s1) = snd (TC013.assertion_block s2)
  /\ TC013.assertion_block s1 = (s1, Ok tt)
  /\ Forall (fun a : M unit => forall s, a s = (s, Ok tt)) TC013.assertions
  /\ existsb (Z.eqb TC013.response_status) [401; 403] = true
  /\ String.eqb TC013.returned_user_id TC013.logged_in_user_id = true
  /\ forallb (fun f => negb (dict_has_key TC013.aggregated_data f))
       TC013.pii_fields = true.
Proof.
  repeat split. repeat constructor.
Qed.

(** * Further properties of the scripts *)

(** ** Computations that make calls of one class only *)

Lemma emits_nothing (P : call -> bool) {A} (m : M A) :
  (forall s, fst (m s) = s) -> emits P m.
Proof.
  intros H s. exists []. rewrite H. simpl.
  rewrite app_nil_r, state_eta. auto.
Qed.

Lemma emits_bind (P : call -> bool) {A B} (m : M A) (f : A -> M B) :
  emits P m -> (forall a, emits P (f a)) -> emits P (bind m f).
Proof.
  intros Hm Hf s. unfold bind.
  destruct (Hm s) as (evs & Hs & Hevs).
  destruct (m s) as [s1 [a|e]]; simpl in Hs; subst s1.
  - destruct (Hf a {| vars := vars s; trace := trace s ++ evs |})
      as (evs' & Hs' & Hevs').
    exists (evs ++ evs'). rewrite Hs'; simpl. rewrite app_assoc.
    split; [reflexivity|]. rewrite forallb_app.
    apply andb_true_intro; split; assumption.
  - exists evs. auto.
Qed.

Lemma emits_api (P : call -> bool) (w : world) (c : call) :
  P c = true -> emits P (api w c).
Proof.
  intros Hc s. exists [(c, raises w (trace s) c)]. simpl.
  rewrite Hc. auto.
Qed.

Lemma emits_get_text_content (P : call -> bool) (w : world) (l : string) :
  P (text_content l) = true -> emits P (get_text_content w l).
Proof.
  intros Hc s. exists [(text_content l, raises w (trace s) (text_content l))].
  simpl. rewrite Hc. auto.
Qed.

Lemma emits_try_except (P : call -> bool) (m : M unit) :
  emits P m -> emits P (try_except_Error_pass m).
Proof.
  intros Hm s. unfold try_except_Error_pass.
  destruct (Hm s) as (evs & Hs & Hevs). exists evs.
  destruct (m s) as [s1 [a|e]]; simpl in *; [auto|].
  destruct (is_async_api_Error e); simpl; auto.
Qed.

Lemma emits_for_each (P : call -> bool) {A} (xs : list A) (f : A -> M unit) :
  (forall x, emits P (f x)) -> emits P (for_each xs f).
Proof.
  intros Hf. induction xs as [|x xs IH]; simpl.
  - apply emits_nothing. reflexivity.
  - apply emits_bind; auto.
Qed.

Lemma emits_block (P : call -> bool) (stmts : list (M unit)) :
  Forall (emits P) stmts -> emits P (block stmts).
Proof.
  induction 1 as [|st l Hst _ IH]; simpl.
  - apply emits_nothing. reflexivity.
  - apply emits_bind; auto.
Qed.

Lemma emits_py_assert (P : call -> bool) (b : bool) (msg : string) :
  emits P (py_assert b msg).
Proof. apply emits_nothing. intros s. destruct b; reflexivity. Qed.

Lemma emits_scroll_step (P : call -> bool) (w : world) (names : list string) :
  emits P (scroll_step w names).
Proof.
  apply emits_nothing. intros s. unfold scroll_step, bind, load_name.
  destruct (existsb _ _); reflexivity.
Qed.

Lemma emits_click_step (P : call -> bool) (w : world) (sel : selector) :
  P context_pages_last = true -> P (wait_for_timeout 3000) = true ->
  P (click sel 5000) = true ->
  emits P (click_step w sel).
Proof.
  intros H1 H2 H3. unfold click_step.
  repeat (apply emits_bind; [|intros _]); apply emits_api; assumption.
Qed.

Lemma emits_wait_frames (P : call -> bool) (w : world) :
  (forall f, P (frame_wait f) = true) -> emits P (wait_frames w).
Proof.
  intros HP. unfold wait_frames. apply emits_bind.
  - apply emits_nothing. reflexivity.
  - intros fs. apply emits_for_each. intros f.
    apply emits_try_except, emits_api, HP.
Qed.

Lemma emits_text_assertion (P : call -> bool) (w : world) (t : string) :
  P (text_content ("text=" ++ t)) = true -> emits P (TC006.text_assertion w t).
Proof.
  intros HP. unfold TC006.text_assertion. apply emits_bind.
  - apply emits_get_text_content, HP.
  - intros [hay|]; simpl; [apply emits_py_assert|].
    apply emits_nothing. reflexivity.
Qed.

Lemma emits_TC013_assertion_block (P : call -> bool) :
  emits P TC013.assertion_block.
Proof.
  apply emits_block. repeat constructor; try apply emits_py_assert.
  apply emits_for_each. intros f. apply emits_py_assert.
Qed.

Ltac emits_stmt :=
  first [ apply emits_scroll_step
        | apply emits_click_step; reflexivity
        | apply emits_wait_frames; intros ?; reflexivity
        | apply emits_TC013_assertion_block
        | apply emits_py_assert
        | apply emits_try_except, emits_api; reflexivity
        | apply emits_api; reflexivity
        | apply emits_block; repeat constructor;
          apply emits_text_assertion; reflexivity ].

(** Every event of the [try] suite is an acquisition call or a call of the
    class that the statements after acquisition keep to. *)
Lemma body_calls_in_class (P : call -> bool) (w : world) (sc : script) :
  emits P (block (setup w ++ steps_of w sc)) ->
  forall ev, In ev (trace (fst (block (body_of w sc) fresh))) ->
             is_acquire (fst ev) = true \/ P (fst ev) = true.
Proof.
  intros Hq. unfold body_of. rewrite block_app.
  set (rest := block (setup w ++ steps_of w sc)) in *. clearbody rest.
  unfold acquire; cbn [block].
  unfold start_pw, launch_browser, open_context, bind, api, set_pw,
    set_browser, set_context, ret, fresh, log; simpl.
  destruct (raises w [] async_playwright_start) as [e|]; simpl;
    [intros ev [<-|[]]; auto|].
  destruct (raises w _ (chromium_launch true launch_args)) as [e|]; simpl;
    [intros ev [<-|[<-|[]]]; auto|].
  destruct (raises w _ new_context) as [e|]; simpl;
    [intros ev [<-|[<-|[<-|[]]]]; auto|].
  match goal with |- forall ev, In ev (trace (fst (rest ?s0))) -> _ =>
    destruct (Hq s0) as (evs & -> & Hevs)
  end.
  simpl. intros ev [<-|[<-|[<-|Hin]]]; auto.
  right. rewrite forallb_forall in Hevs. apply Hevs, Hin.
Qed.

Lemma run_calls_in_class (P : call -> bool) (w : world) (sc : script) :
  emits P (block (setup w ++ steps_of w sc)) ->
  forall ev, In ev (trace (fst (run_test_of w sc fresh))) ->
             is_acquire (fst ev) = true \/ P (fst ev) = true
             \/ is_close (fst ev) = true.
Proof.
  intros Hq ev.
  destruct (block (body_of w sc) fresh) as [s1 r1] eqn:Hb.
  rewrite (run_test_unfold w sc s1 r1 Hb). simpl. intros Hin.
  apply in_app_or in Hin as [Hin|Hin].
  - pose proof (body_calls_in_class P w sc Hq ev) as H. rewrite Hb in H.
    destruct (H Hin); auto.
  - pose proof (teardown_events_close w (trace s1) (vars s1)) as Hcl.
    unfold close_events in Hcl. rewrite forallb_forall in Hcl. auto.
Qed.

(** ** Prefixes of lists *)

Lemma firstn_incl {A} (n : nat) (l : list A) (x : A) :
  In x (firstn n l) -> In x l.
Proof.
  revert n; induction l as [|y l IH]; intros [|n]; simpl; try tauto.
  intros [H|H]; [left; exact H | right; apply (IH n H)].
Qed.

Lemma firstn_NoDup {A} (n : nat) (l : list A) :
  NoDup l -> NoDup (firstn n l).
Proof.
  intros H; revert n; induction H as [|y l Hy _ IH]; intros [|n]; simpl;
    try constructor.
  - intros Hin. apply Hy, (firstn_incl n l y Hin).
  - apply IH.
Qed.

(** ** Partial acquisition *)

(** X1: in every run of every script in which starting the Playwright
    engine raises, the run is that one call: nothing was acquired, so the
    [finally] suite closes nothing, and [run_test] raises the exception of
    the start. *)
Theorem X1_start_failure_closes_nothing (w : world) (sc : script) (e : exn) :
  In (async_playwright_start, Some e) (trace (fst (run_test_of w sc fresh))) ->
  run_test_of w sc fresh
  = ({| vars := no_locals; trace := [(async_playwright_start, Some e)] |},
     Raise e).
Proof.
  destruct (block (body_of w sc) fresh) as [s1 r1] eqn:Hb.
  rewrite (run_test_unfold w sc s1 r1 Hb).
  pose proof (teardown_events_close w (trace s1) (vars s1)) as Hcl.
  unfold close_events in Hcl. rewrite forallb_forall in Hcl.
  pose proof (body_cases w sc) as Hcases. rewrite Hb in Hcases.
  inversion Hcases as [e0|e0|e0|evs r Hevs]; subst; simpl in *.
  - intros [H|[]]. injection H as <-. reflexivity.
  - intros [H|[H|H]]; try discriminate H. apply Hcl in H. discriminate H.
  - intros [H|[H|[H|H]]]; try discriminate H. apply Hcl in H. discriminate H.
  - intros [H|[H|[H|H]]]; try discriminate H.
    apply in_app_or in H as [H|H].
    + apply (step_events_In _ _ Hevs) in H. discriminate H.
    + apply Hcl in H. discriminate H.
Qed.

Lemma X1_start_failure_closes_nothing_witness :
  close_calls (trace (fst (run_test_of (failing is_start Error) tc006 fresh)))
  = [].
Proof.
  rewrite (X1_start_failure_closes_nothing (failing is_start Error) tc006 Error).
  - reflexivity.
  - vm_compute. auto.
Defined.

(** X2: in every run of every script in which [browser.new_context()]
    raises, no step call is made and [context.close()] is never called: after
    the failed call come the close calls of the browser and of the engine,
    in that order, up to the first that raises; when neither raises, both
    are made and [run_test] raises the exception of [new_context]. *)
Theorem X2_context_failure_closes_browser_and_engine (w : world) (sc : script)
        (e : exn) :
  In (new_context, Some e) (trace (fst (run_test_of w sc fresh))) ->
  exists td,
    trace (fst (run_test_of w sc fresh))
    = [(async_playwright_start, None); (launch, None); (new_context, Some e)]
      ++ td
    /\ (exists n, map fst td = firstn n [browser_close; pw_stop])
    /\ (forall ev, In ev (trace (fst (run_test_of w sc fresh))) ->
                   is_step_call (fst ev) = false /\ fst ev <> context_close)
    /\ (no_close_raised td = true ->
        map fst td = [browser_close; pw_stop]
        /\ snd (run_test_of w sc fresh) = Raise e).
Proof.
  destruct (block (body_of w sc) fresh) as [s1 r1] eqn:Hb.
  rewrite (run_test_unfold w sc s1 r1 Hb).
  pose proof (teardown_events_close w (trace s1) (vars s1)) as Hcl.
  pose proof (run_calls_prefix w (closes_due (vars s1)) (trace s1)) as Hpre.
  pose proof (run_calls_all w (closes_due (vars s1)) (trace s1)) as Hall.
  pose proof (body_cases w sc) as Hcases. rewrite Hb in Hcases.
  inversion Hcases as [e0|e0|e0|evs r Hevs]; subst; simpl trace in *;
    simpl vars in *; simpl fst; simpl snd.
  - intros [H|[]]. discriminate H.
  - unfold close_events in Hcl. rewrite forallb_forall in Hcl.
    intros H. simpl in H. destruct H as [H|[H|H]]; try discriminate H.
    apply Hcl in H. discriminate H.
  - intros H.
    assert (e = e0) as <-.
    { simpl in H. destruct H as [H|[H|[H|H]]]; try discriminate H.
      - injection H as <-. reflexivity.
      - unfold close_events in Hcl. rewrite forallb_forall in Hcl.
        apply Hcl in H. discriminate H. }
    change (closes_due with_browser) with [browser_close; pw_stop] in *.
    set (rc := run_calls w _ [browser_close; pw_stop]) in *.
    exists (fst rc). split; [reflexivity|]. split; [exact Hpre|]. split.
    + intros ev Hin. simpl in Hin.
      destruct Hin as [<-|[<-|[<-|Hin]]];
        try (split; [reflexivity | discriminate]).
      destruct Hpre as (n & Hn).
      assert (Hc : In (fst ev) (firstn n [browser_close; pw_stop]))
        by (rewrite <- Hn; apply in_map, Hin).
      apply firstn_incl in Hc.
      destruct Hc as [<-|[<-|[]]]; split; (reflexivity || discriminate).
    + intros Hok.
      destruct (Hall (close_events_not_raised _ Hcl Hok)) as [Hm Hr].
      split; [exact Hm|].
      change (match snd rc with
              | Ok _ => @Raise unit e
              | Raise e' => Raise e'
              end = Raise e).
      rewrite Hr. reflexivity.
  - unfold close_events in Hcl. rewrite forallb_forall in Hcl.
    intros H. simpl in H. destruct H as [H|[H|[H|H]]]; try discriminate H.
    apply in_app_or in H as [H|H].
    + apply (step_events_In _ _ Hevs) in H. discriminate H.
    + apply Hcl in H. discriminate H.
Qed.

Lemma X2_context_failure_closes_browser_and_engine_witness :
  exists td,
    trace (fst (run_test_of (failing is_new_context Error) tc014 fresh))
    = [(async_playwright_start, None); (launch, None);
       (new_context, Some Error)] ++ td
    /\ map fst td = [browser_close; pw_stop].
Proof.
  destruct (X2_context_failure_closes_browser_and_engine
              (failing is_new_context Error) tc014 Error)
    as (td & Htr & _ & _ & Hok).
  - vm_compute. auto.
  - exists td. split; [exact Htr|].
    apply Hok. vm_compute in Htr. injection Htr as <-. reflexivity.
Defined.

(** ** The shape of every run *)

(** X3: every run of every script goes through three phases in this order:
    acquisition calls, then step calls, then close calls.  No step call is
    made before the whole session (engine, browser, context) is acquired,
    and none after the teardown has begun. *)
Theorem X3_trace_phases (w : world) (sc : script) :
  exists a b c,
    trace (fst (run_test_of w sc fresh)) = a ++ b ++ c
    /\ forallb (fun ev => is_acquire (fst ev)) a = true
    /\ step_events b = true
    /\ close_events c = true
    /\ (b = [] \/ a = session_events).
Proof.
  destruct (block (body_of w sc) fresh) as [s1 r1] eqn:Hb.
  rewrite (run_test_unfold w sc s1 r1 Hb).
  pose proof (teardown_events_close w (trace s1) (vars s1)) as Hcl.
  pose proof (body_cases w sc) as Hcases. rewrite Hb in Hcases.
  inversion Hcases as [e0|e0|e0|evs r Hevs]; subst; simpl trace in *;
    simpl vars in *; simpl fst.
  1-3: match type of Hcl with
       | close_events (fst (run_calls ?w0 ?tr ?cs)) = true =>
           exists tr, [], (fst (run_calls w0 tr cs)); repeat split;
           solve [exact Hcl | left; reflexivity]
       end.
  exists session_events, evs, (fst (run_calls w (session_events ++ evs)
                                     (closes_due with_context))).
  split; [reflexivity|]. repeat split; auto.
Qed.

Lemma run_calls_ok (w : world) (cs : list call) :
  forall tr,
    snd (run_calls w tr cs) = Ok tt ->
    fst (run_calls w tr cs) = map (fun c => (c, None)) cs.
Proof.
  induction cs as [|c cs IH]; intros tr; simpl.
  - reflexivity.
  - destruct (raises w tr c) as [e|]; [discriminate|].
    specialize (IH (tr ++ [(c, None)])).
    destruct (run_calls w (tr ++ [(c, None)]) cs) as [evs r].
    simpl in *. intros H. rewrite (IH H). reflexivity.
Qed.

Lemma closes_due_NoDup (v : locals) : NoDup (closes_due v).
Proof.
  destruct v as [[] [] []]; unfold closes_due; simpl;
    repeat constructor; simpl; intuition discriminate.
Qed.

(** X4: in every run of every script, close calls raising or not, the close
    calls made are an initial part of those due for the resources whose
    variable is set, in the order context, browser, engine: no resource is
    closed twice, and a resource is closed only if its acquisition call
    returned. *)
Theorem X4_closes_in_order_at_most_once (w : world) (sc : script) :
  let run := run_test_of w sc fresh in
  (exists n,
     close_calls (trace (fst run))
     = firstn n (closes_due (vars (fst (block (body_of w sc) fresh)))))
  /\ NoDup (close_calls (trace (fst run)))
  /\ (In context_close (close_calls (trace (fst run))) ->
      In (new_context, None) (trace (fst run)))
  /\ (In browser_close (close_calls (trace (fst run))) ->
      In (launch, None) (trace (fst run)))
  /\ (In pw_stop (close_calls (trace (fst run))) ->
      In (async_playwright_start, None) (trace (fst run))).
Proof.
  intros run.
  pose proof (locals_reflect_acquisition w sc) as (Hpw & Hbr & Hctx).
  pose proof (body_no_close w sc) as Hnc.
  destruct (block (body_of w sc) fresh) as [s1 r1] eqn:Hb.
  assert (Hrun : run = run_test_of w sc fresh) by reflexivity.
  rewrite (run_test_unfold w sc s1 r1 Hb) in Hrun.
  rewrite Hrun. simpl in *.
  pose proof (teardown_events_close w (trace s1) (vars s1)) as Hcl.
  destruct (run_calls_prefix w (closes_due (vars s1)) (trace s1)) as (n & Hn).
  rewrite close_calls_app, Hnc, (close_calls_all _ Hcl), Hn. simpl.
  split; [exists n; reflexivity|].
  split; [apply firstn_NoDup, closes_due_NoDup|].
  repeat split; intros Hin; apply firstn_incl in Hin; apply in_or_app; left;
    [apply Hctx | apply Hbr | apply Hpw];
    destruct (vars s1) as [[] [] []]; unfold closes_due in Hin; simpl in *;
    try discriminate;
    repeat match goal with
           | H : _ \/ _ |- _ => destruct H as [H|H]
           | H : _ = _ |- _ => discriminate H
           | H : False |- _ => destruct H
           end.
Qed.

Lemma X4_closes_in_order_at_most_once_witness :
  In (async_playwright_start, None)
     (trace (fst (run_test_of (failing is_launch Error) tc011 fresh))).
Proof.
  apply (X4_closes_in_order_at_most_once (failing is_launch Error) tc011).
  vm_compute. auto.
Defined.

(** ** Success *)

Lemma run_ok_inv (w : world) (sc : script) (s' : state) :
  run_test_of w sc fresh = (s', Ok tt) ->
  exists s1,
    block (body_of w sc) fresh = (s1, Ok tt)
    /\ vars s1 = with_context
    /\ s' = {| vars := with_context;
               trace := trace s1 ++ [(context_close, None);
                                     (browser_close, None); (pw_stop, None)] |}.
Proof.
  destruct (block (body_of w sc) fresh) as [s1 r1] eqn:Hb.
  rewrite (run_test_unfold w sc s1 r1 Hb).
  pose proof (run_calls_ok w (closes_due (vars s1)) (trace s1)) as Hok.
  pose proof (body_cases w sc) as Hcases. rewrite Hb in Hcases.
  destruct (snd (run_calls w (trace s1) (closes_due (vars s1))))
    as [[]|e'] eqn:Hr; [|discriminate].
  intros H. injection H as <- ->. rewrite (Hok eq_refl).
  inversion Hcases as [e0|e0|e0|evs r Hevs]; subst.
  exists {| vars := with_context; trace := session_events ++ evs |}.
  auto.
Qed.

(** X5: [run_test] returns normally only when its [try] suite did and the
    teardown closed all three resources without an error: the run then ends
    with the successful close calls of the context, the browser and the
    engine, in that order, and these are its only close calls.  A failure of
    the scenario is never turned into a success. *)
Theorem X5_success_means_clean_run (w : world) (sc : script) (s' : state) :
  run_test_of w sc fresh = (s', Ok tt) ->
  snd (block (body_of w sc) fresh) = Ok tt
  /\ trace s'
     = trace (fst (block (body_of w sc) fresh))
       ++ [(context_close, None); (browser_close, None); (pw_stop, None)]
  /\ close_calls (trace s') = [context_close; browser_close; pw_stop]
  /\ vars s' = with_context.
Proof.
  intros Hrun. pose proof (body_no_close w sc) as Hnc.
  destruct (run_ok_inv w sc s' Hrun) as (s1 & Hb & Hv & ->).
  rewrite Hb in *. simpl in *.
  repeat split. rewrite close_calls_app, Hnc. reflexivity.
Qed.

Lemma X5_success_means_clean_run_witness :
  close_calls (trace (fst (run_test_of found_page tc006 fresh)))
  = [context_close; browser_close; pw_stop].
Proof.
  apply (X5_success_means_clean_run found_page tc006
           (fst (run_test_of found_page tc006 fresh))).
  vm_compute. reflexivity.
Defined.

(** X6: TC006 is the only script that can pass.  TC005, TC008, TC011 and
    TC014 end in [assert False], and TC013 has a scroll step, which always
    raises, before its assertions: in no world does [run_test] of any of
    these five return normally. *)
Theorem X6_only_TC006_can_pass (w : world) (sc : script) (s' : state) :
  run_test_of w sc fresh = (s', Ok tt) -> sc = tc006.
Proof.
  intros Hrun. destruct (run_ok_inv w sc s' Hrun) as (s1 & Hb & _).
  assert (Hfail : forall msg, failure_message_of sc = Some msg -> False).
  { intros msg Hmsg.
    apply (block_never_ok _ _ _ (assert_False_position w sc msg Hmsg))
      with (s := fresh) (s' := s1); [|exact Hb].
    intros s. exists s, (AssertionError msg). reflexivity. }
  destruct sc; try reflexivity;
    try (exfalso; eapply Hfail; reflexivity).
  exfalso.
  destruct (first_scroll_positions w) as (_ & _ & _ & Hk).
  apply (block_never_ok _ _ _ Hk) with (s := fresh) (s' := s1); [|exact Hb].
  intros s. exists s, (NameError "window").
  apply scroll_step_raises, window_unbound.
Qed.

Lemma X6_only_TC006_can_pass_witness :
  snd (run_test_of found_page tc006 fresh) = Ok tt /\ tc006 = tc006.
Proof.
  split; [vm_compute; reflexivity|].
  apply (X6_only_TC006_can_pass found_page tc006
           (fst (run_test_of found_page tc006 fresh))).
  vm_compute. reflexivity.
Defined.

(** ** What the scripts reach *)

Lemma emits_block_dead_tail (P : call -> bool) (a b : list (M unit)) :
  emits P (block a) -> (forall s, fst (block b s) = s) ->
  emits P (block (a ++ b)).
Proof.
  intros Ha Hb s. rewrite block_app.
  destruct (Ha s) as (evs & Hs & Hevs). exists evs.
  destruct (block a s) as [s1 [[]|e]]; simpl in *; [|auto].
  rewrite Hb. auto.
Qed.

Lemma emits_setup (w : world) : emits is_setup_call (block (setup w)).
Proof. apply emits_block. repeat constructor; emits_stmt. Qed.

Lemma class_of_setup_call (c : call) :
  is_step_call c = true ->
  is_acquire c = true \/ is_setup_call c = true \/ is_close c = true ->
  is_setup_call c = true.
Proof.
  intros Hs [H|[H|H]]; [|exact H|]; destruct c; discriminate.
Qed.

(** X7: TC005, TC008 and TC011 never get past their scaffolding.  Their
    first scenario statement is a scroll step, so in every run the only
    step calls ever made are those of lines 26-45, with the arguments they
    have there: no click, no further navigation, no sleep. *)
Theorem X7_scroll_first_scripts_stop_after_setup (w : world) (sc : script) :
  In sc [tc005; tc008; tc011] ->
  forall ev, In ev (trace (fst (run_test_of w sc fresh))) ->
             is_step_call (fst ev) = true ->
             is_setup_call (fst ev) = true.
Proof.
  intros Hsc ev Hin Hstep.
  apply (class_of_setup_call _ Hstep).
  apply (run_calls_in_class is_setup_call w sc); [|exact Hin].
  apply emits_block_dead_tail; [apply emits_setup|].
  intros s.
  assert (Hscroll : exists rest,
             steps_of w sc = scroll_step w (names_of sc) :: rest).
  { destruct Hsc as [<-|[<-|[<-|[]]]]; eexists; reflexivity. }
  destruct Hscroll as (rest & ->). simpl. unfold bind.
  rewrite (scroll_step_raises w _ s (window_unbound sc)). reflexivity.
Qed.

Lemma X7_scroll_first_scripts_stop_after_setup_witness :
  In (initial_goto, None) (trace (fst (run_test_of calm tc008 fresh)))
  /\ is_setup_call initial_goto = true.
Proof.
  assert (Hin : In (initial_goto, None)
                   (trace (fst (run_test_of calm tc008 fresh))))
    by (vm_compute; auto 10).
  split; [exact Hin|].
  apply (X7_scroll_first_scripts_stop_after_setup calm tc008
           (or_intror (or_introl eq_refl)) (initial_goto, None) Hin).
  reflexivity.
Defined.

Lemma is_confined_acquire_close (c : call) :
  is_acquire c = true \/ is_close c = true -> is_confined c = true.
Proof. intros [H|H]; destruct c; try discriminate; reflexivity. Qed.

(** X8: in every run of every script, every navigation targets a URL under
    [http://localhost:8081] with a timeout of 10000 ms, every load-state or
    fixed wait is of 3000 ms, every click has a timeout of 5000 ms, the
    default timeout is set to 5000 ms, and no mouse-wheel call is made. *)
Theorem X8_calls_confined_and_bounded (w : world) (sc : script) (ev : event) :
  In ev (trace (fst (run_test_of w sc fresh))) -> is_confined (fst ev) = true.
Proof.
  intros Hin.
  assert (Hq : emits is_confined (block (setup w ++ steps_of w sc))).
  { apply emits_block. destruct sc; repeat constructor; emits_stmt. }
  destruct (run_calls_in_class is_confined w sc Hq ev Hin) as [H|[H|H]];
    auto using is_confined_acquire_close.
Qed.

Lemma X8_calls_confined_and_bounded_witness :
  is_confined (goto "http://localhost:8081/logs" None 10000) = true.
Proof.
  apply (X8_calls_confined_and_bounded calm tc014
           (goto "http://localhost:8081/logs" None 10000, None)).
  vm_compute. auto 30.
Defined.

(** ** What a pass of TC006 means *)

(** X9: when [run_test] of TC006 returns normally, the captcha click went
    through and each of the three [text_content()] calls, made in the order
    offline message, synchronisation message, conflict message, returned a
    string that contains the expected text; after them the run only sleeps
    and closes the context, the browser and the engine. *)
Theorem X9_TC006_pass_means_texts_found (w : world) (s' : state) :
  TC006.run_test w fresh = (s', Ok tt) ->
  exists tr h1 h2 h3,
    let tr2 := tr ++ [(text_content ("text=" ++ TC006.offline_text), None)] in
    let tr3 := tr2 ++ [(text_content ("text=" ++ TC006.sync_text), None)] in
    trace s'
    = tr3 ++ [(text_content ("text=" ++ TC006.conflict_text), None);
              (asyncio_sleep 5, None); (context_close, None);
              (browser_close, None); (pw_stop, None)]
    /\ In (click TC006.captcha_checkbox 5000, None) tr
    /\ text w tr ("text=" ++ TC006.offline_text) = Some h1
    /\ contains TC006.offline_text h1 = true
    /\ text w tr2 ("text=" ++ TC006.sync_text) = Some h2
    /\ contains TC006.sync_text h2 = true
    /\ text w tr3 ("text=" ++ TC006.conflict_text) = Some h3
    /\ contains TC006.conflict_text h3 = true.
Proof.
  intros Hrun.
  destruct (run_ok_inv w tc006 s' Hrun) as (s1 & Hb & Hv & ->).
  change (body_of w tc006)
    with ((acquire w ++ setup w)
          ++ [click_step w TC006.captcha_checkbox; TC006.assertion_block w;
              sleep_step w]) in Hb.
  rewrite block_app in Hb.
  destruct (block (acquire w ++ setup w) fresh) as [s0 [[]|e]];
    [|discriminate Hb].
  unfold TC006.assertion_block, TC006.assertions, TC006.text_assertion,
    click_step, sleep_step in Hb.
  cbn [block] in Hb.
  unfold bind, get_text_content, api, log, ret in Hb. simpl in Hb.
  unfold event in *.
  repeat match type of Hb with
         | context [raises w ?t ?c] =>
             lazymatch t with
             | context [raises] => fail
             | context [text] => fail
             | _ => destruct (raises w t c) eqn:?; simpl in Hb;
                    try discriminate Hb
             end
         | context [text w ?t ?l] =>
             lazymatch t with
             | context [raises] => fail
             | _ => destruct (text w t l) eqn:?; simpl in Hb;
                    try discriminate Hb
             end
         | context [contains ?a ?b] =>
             destruct (contains a b) eqn:?; simpl in Hb;
             try discriminate Hb
         end.
  injection Hb as <-. simpl.
  exists (trace s0 ++ [(context_pages_last, None); (wait_for_timeout 3000, None);
                       (click TC006.captcha_checkbox 5000, None)]).
  do 3 eexists.
  repeat rewrite <- app_assoc in *. simpl in *.
  repeat split; try eassumption.
  apply in_or_app. right. simpl. auto.
Qed.

Lemma X9_TC006_pass_means_texts_found_witness :
  exists tr h1,
    text found_page tr ("text=" ++ TC006.offline_text) = Some h1
    /\ contains TC006.offline_text h1 = true.
Proof.
  destruct (X9_TC006_pass_means_texts_found found_page
              (fst (TC006.run_test found_page fresh)))
    as (tr & h1 & _ & _ & _ & _ & H1 & H2 & _).
  - vm_compute. reflexivity.
  - exists tr, h1. split; assumption.
Defined.

(** ** The waits of the scaffolding *)

Lemma for_each_app {A} (xs ys : list A) (f : A -> M unit) (s : state) :
  for_each (xs ++ ys) f s =
  match for_each xs f s with
  | (s1, Ok _) => for_each ys f s1
  | (s1, Raise e) => (s1, Raise e)
  end.
Proof.
  revert s; induction xs as [|x xs IH]; intros s; simpl.
  - reflexivity.
  - unfold bind. destruct (f x s) as [s1 [[]|e]]; [apply IH | reflexivity].
Qed.

Lemma for_each_tolerated (w : world) (fs : list nat) :
  (forall tr f e,
     In f fs -> raises w tr (frame_wait f) = Some e ->
     is_async_api_Error e = true) ->
  forall s, exists evs,
    for_each fs (wait_frame_loaded w) s
    = ({| vars := vars s; trace := trace s ++ evs |}, Ok tt)
    /\ map fst evs = map frame_wait fs.
Proof.
  induction fs as [|f fs IH]; intros Htol s.
  - exists []. simpl. unfold ret. rewrite app_nil_r, state_eta. auto.
  - simpl. unfold bind, wait_frame_loaded at 1, try_except_Error_pass, api.
    fold (frame_wait f).
    assert (Htl : forall tr g e, In g fs ->
                    raises w tr (frame_wait g) = Some e ->
                    is_async_api_Error e = true)
      by (intros tr g e Hg; apply Htol; right; exact Hg).
    destruct (raises w (trace s) (frame_wait f)) as [e|] eqn:He.
    + rewrite (Htol _ f e (or_introl eq_refl) He).
      destruct (IH Htl (log (frame_wait f, Some e) s)) as (evs & -> & Hm).
      exists ((frame_wait f, Some e) :: evs). simpl.
      rewrite <- app_assoc, Hm. auto.
    + destruct (IH Htl (log (frame_wait f, None) s)) as (evs & -> & Hm).
      exists ((frame_wait f, None) :: evs). simpl.
      rewrite <- app_assoc, Hm. auto.
Qed.

(** X10: the loop over [page.frames] tolerates Playwright errors only.  When
    the waits on the frames before [f] fail, if at all, with errors of the
    [async_api.Error] family, and the wait on [f] raises an exception [e]
    outside that family, the loop ends with [e] right after that wait: the
    frames before [f] and [f] itself have been waited on, in order, and the
    frames after [f] are not waited on. *)
Theorem X10_frame_loop_aborts_on_foreign_exception (w : world) (s : state)
        (before after : list nat) (f : nat) (e : exn) :
  frames w (trace s) = before ++ f :: after ->
  (forall tr g e',
     In g before -> raises w tr (frame_wait g) = Some e' ->
     is_async_api_Error e' = true) ->
  (forall tr, raises w tr (frame_wait f) = Some e) ->
  is_async_api_Error e = false ->
  exists evs,
    wait_frames w s
    = ({| vars := vars s;
          trace := trace s ++ evs ++ [(frame_wait f, Some e)] |}, Raise e)
    /\ map fst evs = map frame_wait before.
Proof.
  intros Hfs Htol Hf He.
  unfold wait_frames, bind, page_frames. rewrite Hfs, for_each_app.
  destruct (for_each_tolerated w before Htol s) as (evs & -> & Hm).
  exists evs. split; [|exact Hm].
  simpl. unfold bind, wait_frame_loaded at 1, try_except_Error_pass, api.
  fold (frame_wait f). rewrite Hf, He. simpl.
  unfold log. simpl. rewrite <- app_assoc. reflexivity.
Qed.

Lemma X10_frame_loop_aborts_on_foreign_exception_witness :
  exists evs,
    wait_frames cancelled_iframe fresh
    = ({| vars := no_locals;
          trace := evs ++ [(frame_wait 1, Some (OtherException "CancelledError"))] |},
       Raise (OtherException "CancelledError"))
    /\ map fst evs = [frame_wait 0].
Proof.
  apply (X10_frame_loop_aborts_on_foreign_exception cancelled_iframe fresh
           [0%nat] [2%nat] 1).
  - reflexivity.
  - intros tr g e' [<-|[]] H. discriminate H.
  - reflexivity.
  - reflexivity.
Defined.

(** X11: the scaffolding reaches the scenario.  When none of the six calls
    of lines 11-32 raises and the load-state waits fail, if at all, with
    errors of the [async_api.Error] family, the eight statements of
    acquisition and set-up complete with the three locals set, having made
    the six calls, the wait on the page and one wait per frame of the page,
    in that order; the [try] suite of every script then continues with its
    first scenario statement in that state. *)
Theorem X11_scaffolding_reaches_scenario (w : world) :
  (forall tr c, In c scaffold_calls -> raises w tr c = None) ->
  (forall tr c e,
     is_load_wait c = true -> raises w tr c = Some e ->
     is_async_api_Error e = true) ->
  exists o evs,
    let tr := session_events
              ++ [(set_default_timeout 5000, None); (new_page, None);
                  (initial_goto, None);
                  (page_wait_for_load_state "domcontentloaded" 3000, o)] in
    let s := {| vars := with_context; trace := tr ++ evs |} in
    block (acquire w ++ setup w) fresh = (s, Ok tt)
    /\ map fst evs = map frame_wait (frames w tr)
    /\ forall sc, block (body_of w sc) fresh = block (steps_of w sc) s.
Proof.
  intros Hok Htol.
  assert (Hfr : forall tr f e,
             raises w tr (frame_wait_for_load_state f "domcontentloaded" 3000)
             = Some e -> is_async_api_Error e = true)
    by (intros tr f e; apply Htol; reflexivity).
  assert (Haux : exists o evs,
             block (acquire w ++ setup w) fresh
             = ({| vars := with_context;
                   trace := (session_events
                             ++ [(set_default_timeout 5000, None);
                                 (new_page, None); (initial_goto, None);
                                 (page_wait_for_load_state "domcontentloaded"
                                    3000, o)])
                            ++ evs |}, Ok tt)
             /\ map fst evs
                = map frame_wait
                    (frames w
                       (session_events
                        ++ [(set_default_timeout 5000, None);
                            (new_page, None); (initial_goto, None);
                            (page_wait_for_load_state "domcontentloaded"
                               3000, o)]))).
  { unfold acquire, setup. cbn [app block].
    unfold start_pw, launch_browser, open_context, wait_page_loaded,
      wait_frames, page_frames, try_except_Error_pass, bind, api, set_pw,
      set_browser, set_context, ret, fresh, log. simpl.
    rewrite (Hok [] async_playwright_start) by (simpl; auto).
    simpl.
    rewrite (Hok _ (chromium_launch true launch_args)) by (simpl; auto).
    simpl.
    rewrite (Hok _ new_context) by (simpl; auto).
    simpl.
    rewrite (Hok _ (set_default_timeout 5000)) by (simpl; auto).
    simpl.
    rewrite (Hok _ new_page) by (simpl; auto 10).
    simpl.
    rewrite (Hok _ (goto "http://localhost:8081" (Some "commit") 10000))
      by (simpl; auto 10).
    simpl. unfold event in *.
    match goal with
    | |- context [raises w ?t (page_wait_for_load_state ?a ?b)] =>
        pose proof (Htol t (page_wait_for_load_state a b)) as Ho;
        destruct (raises w t (page_wait_for_load_state a b)) as [e|]
    end; simpl.
    - rewrite (Ho e eq_refl eq_refl). exists (Some e).
      match goal with
      | |- context [for_each ?fs ?g ?st] =>
          destruct (for_each_frames w fs Hfr st) as (evs & Hl & Hm)
      end.
      exists evs. rewrite Hl. split; [reflexivity | exact Hm].
    - exists None.
      match goal with
      | |- context [for_each ?fs ?g ?st] =>
          destruct (for_each_frames w fs Hfr st) as (evs & Hl & Hm)
      end.
      exists evs. rewrite Hl. split; [reflexivity | exact Hm]. }
  destruct Haux as (o & evs & Hrun & Hm).
  exists o, evs. cbv zeta.
  split; [exact Hrun|]. split; [exact Hm|].
  intros sc. unfold body_of. rewrite app_assoc, block_app, Hrun. reflexivity.
Qed.

Lemma X11_scaffolding_reaches_scenario_witness :
  exists s, block (acquire slow_iframe ++ setup slow_iframe) fresh = (s, Ok tt).
Proof.
  destruct (X11_scaffolding_reaches_scenario slow_iframe) as (o & evs & H & _).
  - intros tr c Hin. simpl in Hin.
    repeat (destruct Hin as [<-|Hin]; [reflexivity|]). destruct Hin.
  - intros tr c e Hc. destruct c; try discriminate Hc; simpl.
    + intros H. discriminate H.
    + destruct frame as [|[|n]]; simpl; intros H; try discriminate H.
      injection H as <-. reflexivity.
  - eexists. exact H.
Defined.
